(** * The authentication gateway of [index.ts]

    A shallow embedding of the Pulumi program [src/index.ts]: the base-URL
    derivation ([useCustomDomain], [getAPIUrl]), the assembly of the
    published client configuration ([config], [client], [bucketObject]), the
    read path [getAppConfig] and the Lambda handlers bound to [/config],
    [/callback] and [/api].

    Strings are byte strings: a string of the model is the UTF-8 of the
    JavaScript string it stands for, in the bucket, over the wire and in
    the handlers.  Texts that are not UTF-8 (which [Buffer.toString] would
    mend with U+FFFD) and lone surrogates (which only a [\u] escape
    produces; they are kept as three bytes and written back as such) are
    the edge of this reading.  The platform the program runs on (numbers,
    JSON, the S3 bucket, [fetch], the Lambda proxy of the gateway) is
    modelled first, the program itself after it; an [async] function is a
    function of the world that returns the requests it made and the way
    its promise settled.  The definitions come first, the facts about them
    second. *)

From Stdlib Require Import Ascii String List ZArith NArith Lia Bool DecimalString.
From stdpp Require Import base option strings gmap.

(** ** Characters and small string helpers *)

Definition dquote : ascii := "034"%char.
Definition backslash : ascii := "092"%char.

(** [q s] is [s] between double quotes (no escaping): used to write JSON
    texts in examples. *)
Definition q (s : string) : string := String dquote (s +:+ String dquote "").

(** JavaScript truthiness of a string: every string but the empty one. *)
Definition truthy (s : string) : bool :=
  match s with
  | EmptyString => false
  | String _ _ => true
  end.

(** [a && b] on strings: the first operand when it is falsy, else the
    second. *)
Definition js_and (a b : string) : string := if truthy a then b else a.

Fixpoint ends_with (suffix s : string) : bool :=
  if String.eqb suffix s then true
  else match s with
       | EmptyString => false
       | String _ r => ends_with suffix r
       end.

(** ** Errors a promise of the program can be rejected with *)

Inductive Error :=
| AWSError (code : string)      (* rejection of an S3 request *)
| JsError (message : string)    (* [new Error(message)] *)
| SyntaxError                   (* [JSON.parse] on a text that is not JSON *)
| TypeError                     (* property read on [null] *)
| FetchError (type : string).   (* node-fetch: ["system"], ["invalid-json"] *)

Inductive outcome (A : Type) :=
| Resolve (a : A)
| Reject (e : Error).
Arguments Resolve {A} a.
Arguments Reject {A} e.

(** ** Numbers

    What [JSON.parse] makes of a number literal and how the number prints:
    the IEEE 754 double nearest to the literal, and Number::toString of it,
    in exact integer arithmetic. *)

Module Number.

Local Open Scope Z_scope.

(** The decimal a literal denotes: [(-1)^neg * digits * 10^exp10]. *)
Record decimal := { neg : bool; digits : Z; exp10 : Z }.

Definition is_digit (c : ascii) : bool :=
  let n := N_of_ascii c in (48 <=? n)%N && (n <=? 57)%N.

(** The digits in front of [s], added to [acc]; how many there were; what
    follows. *)
Fixpoint read_digits (acc count : Z) (s : string) : Z * Z * string :=
  match s with
  | EmptyString => (acc, count, s)
  | String c r =>
      if is_digit c
      then read_digits (acc * 10 + (Z.of_N (N_of_ascii c) - 48)) (count + 1) r
      else (acc, count, s)
  end.

Definition of_literal (lit : string) : decimal :=
  let (sign, s) :=
    match lit with
    | String c r => if Ascii.eqb c "-" then (true, r) else (false, lit)
    | EmptyString => (false, lit)
    end in
  let '(i, _, s1) := read_digits 0 0 s in
  let '(f, places, s2) :=
    match s1 with
    | String c r => if Ascii.eqb c "." then read_digits i 0 r else (i, 0, s1)
    | EmptyString => (i, 0, s1)
    end in
  let e :=
    match s2 with
    | String c r =>
        if Ascii.eqb c "e" || Ascii.eqb c "E" then
          match r with
          | String c' r' =>
              if Ascii.eqb c' "-" then - (read_digits 0 0 r').1.1
              else if Ascii.eqb c' "+" then (read_digits 0 0 r').1.1
              else (read_digits 0 0 r).1.1
          | EmptyString => 0
          end
        else 0
    | EmptyString => 0
    end in
  {| neg := sign; digits := f; exp10 := e - places |}.

(** An IEEE 754 binary64 value that is not NaN: [mantissa * 2^exponent]
    with [mantissa < 2^53], and [2^52 <= mantissa] unless the exponent is
    the least one, [-1074]. *)
Inductive double :=
| Zero (negative : bool)
| Infinity (negative : bool)
| Finite (negative : bool) (mantissa exponent : Z).

(** The integer nearest to [a / b], the even one of two. *)
Definition round_div (a b : Z) : Z :=
  let q := a / b in
  let r := a mod b in
  if 2 * r <? b then q
  else if b <? 2 * r then q + 1
  else if Z.even q then q else q + 1.

(** [num / den < 2^l] *)
Definition below_pow2 (num den l : Z) : bool :=
  if 0 <=? l then num <? den * 2 ^ l else num * 2 ^ (- l) <? den.

(** The double nearest to a decimal (round to nearest, ties to even). *)
Definition to_double (d : decimal) : double :=
  let D := digits d in
  let E := exp10 d in
  if D <=? 0 then Zero (neg d)
  else if 310 <=? Z.log2 D * 3 / 10 + E then Infinity (neg d)
  else if (Z.log2 D + 1) * 4 / 10 + 1 + E <=? -330 then Zero (neg d)
  else
    let num := if 0 <=? E then D * 10 ^ E else D in
    let den := if 0 <=? E then 1 else 10 ^ (- E) in
    let l0 := Z.log2 num - Z.log2 den in
    let l := if below_pow2 num den l0 then l0 - 1 else l0 in
    let e := Z.max (l - 52) (-1074) in
    let m := if 0 <=? e then round_div num (den * 2 ^ e)
             else round_div (num * 2 ^ (- e)) den in
    let (m, e) := if m =? 2 ^ 53 then (2 ^ 52, e + 1) else (m, e) in
    if m =? 0 then Zero (neg d)
    else if 971 <? e then Infinity (neg d)
    else Finite (neg d) m e.

Definition StringToNumber (lit : string) : double := to_double (of_literal lit).

(** [m * 2^e < 10^n] *)
Definition below_pow10 (m e n : Z) : bool :=
  let num := if 0 <=? e then m * 2 ^ e else m in
  let den := if 0 <=? e then 1 else 2 ^ (- e) in
  if 0 <=? n then num <? den * 10 ^ n else num * 10 ^ (- n) <? den.

(** The least [n >= start] with [m * 2^e < 10^n]. *)
Fixpoint magnitude (fuel : nat) (m e start : Z) : Z :=
  match fuel with
  | O => start
  | S fuel =>
      if below_pow10 m e start then start else magnitude fuel m e (start + 1)
  end.

(** [floor (m * 2^e / 10^p)] *)
Definition scaled (m e p : Z) : Z :=
  let num := if 0 <=? e then m * 2 ^ e else m in
  let den := if 0 <=? e then 1 else 2 ^ (- e) in
  if 0 <=? p then num / (den * 10 ^ p) else (num * 10 ^ (- p)) / den.

Definition reads_back (m e s p : Z) : bool :=
  match to_double {| neg := false; digits := s; exp10 := p |} with
  | Finite _ m' e' => (m' =? m) && (e' =? e)
  | _ => false
  end.

(** Which of [s * 10^p <= m * 2^e <= (s + 1) * 10^p] is the closer to the
    double: the lower one, or of two equally close the even one. *)
Definition lower_is_closer (m e s p : Z) : bool :=
  let num := if 0 <=? e then m * 2 ^ e else m in
  let den := if 0 <=? e then 1 else 2 ^ (- e) in
  let pn := if 0 <=? p then 10 ^ p else 1 in
  let pd := if 0 <=? p then 1 else 10 ^ (- p) in
  let twice := 2 * num * pd in
  let middle := (2 * s + 1) * pn * den in
  if twice <? middle then true
  else if middle <? twice then false
  else Z.even s.

(** The digits [s], their number [k] and the magnitude [n] of
    Number::toString: [k] least such that [s * 10^(n - k)] reads back as
    the double, [s] the closest such. *)
Fixpoint shortest (fuel : nat) (m e n k : Z) : Z * Z * Z :=
  match fuel with
  | O => (scaled m e (n - k), k, n)
  | S fuel =>
      let p := n - k in
      let lo := scaled m e p in
      let hi := lo + 1 in
      let ok_lo := reads_back m e lo p in
      let ok_hi := reads_back m e hi p in
      let up := if hi =? 10 ^ k then (10 ^ (k - 1), k, n + 1) else (hi, k, n) in
      if ok_lo && ok_hi then
        if lower_is_closer m e lo p then (lo, k, n) else up
      else if ok_lo then (lo, k, n)
      else if ok_hi then up
      else shortest fuel m e n (k + 1)
  end.

Definition decimal_text (z : Z) : string :=
  NilZero.string_of_uint (N.to_uint (Z.to_N z)).

Fixpoint zeros (n : nat) : string :=
  match n with
  | O => EmptyString
  | S n => String "0" (zeros n)
  end.

(** The digits of [s] without the zeros at its end, and their number. *)
Fixpoint significant (fuel : nat) (s k : Z) : Z * Z :=
  match fuel with
  | O => (s, k)
  | S fuel =>
      if (1 <? k) && (s mod 10 =? 0) then significant fuel (s / 10) (k - 1)
      else (s, k)
  end.

(** The first [n] characters of [s], and the others. *)
Definition first_chars (n : nat) (s : string) : string := String.substring 0 n s.
Definition other_chars (n : nat) (s : string) : string :=
  String.substring n (String.length s - n)%nat s.

(** Number::toString, radix 10, of a positive finite double. *)
Definition positive_text (m e : Z) : string :=
  let start := (Z.log2 m + e - 1) * 30103 / 100000 - 1 in
  let n0 := magnitude 700 m e start in
  let '(s0, k0, n) := shortest 17 m e n0 1 in
  let (s, k) := significant 17 s0 k0 in
  let ds := decimal_text s in
  if (k <=? n) && (n <=? 21) then ds +:+ zeros (Z.to_nat (n - k))
  else if (0 <? n) && (n <=? 21) then
    first_chars (Z.to_nat n) ds +:+ "." +:+ other_chars (Z.to_nat n) ds
  else if (-6 <? n) && (n <=? 0) then "0." +:+ zeros (Z.to_nat (- n)) +:+ ds
  else
    let x := n - 1 in
    let sign := if x <? 0 then "-" else "+" in
    (if k =? 1 then ds else first_chars 1 ds +:+ "." +:+ other_chars 1 ds)
    +:+ "e" +:+ sign +:+ decimal_text (Z.abs x).

(** Number::toString *)
Definition toString (x : double) : string :=
  match x with
  | Zero _ => "0"
  | Infinity false => "Infinity"
  | Infinity true => "-Infinity"
  | Finite false m e => positive_text m e
  | Finite true m e => "-" +:+ positive_text m e
  end.

(** The text [JSON.stringify] writes for a number. *)
Definition json_text (x : double) : string :=
  match x with
  | Infinity _ => "null"
  | _ => toString x
  end.

End Number.

(** ** JSON *)

Module JSON.

(** A number is kept as the literal that denoted it; what it is worth and
    how it prints is [Number.StringToNumber] of the literal. *)
#[warnings="-register-all"]
Inductive value :=
| JNull
| JBool (b : bool)
| JNumber (literal : string)
| JString (s : string)
| JArray (elements : list value)
| JObject (members : list (string * value)).

(** *** [JSON.stringify] *)

Definition hex_digit (n : N) : ascii :=
  if (n <? 10)%N then ascii_of_N (48 + n) else ascii_of_N (87 + n).

(** QuoteJSONString, one character at a time, in front of [k]. *)
Definition write_char (c : ascii) (k : string) : string :=
  let n := N_of_ascii c in
  if (n =? 34)%N then String backslash (String dquote k)
  else if (n =? 92)%N then String backslash (String backslash k)
  else if (n =? 8)%N then String backslash (String "b" k)
  else if (n =? 12)%N then String backslash (String "f" k)
  else if (n =? 10)%N then String backslash (String "n" k)
  else if (n =? 13)%N then String backslash (String "r" k)
  else if (n =? 9)%N then String backslash (String "t" k)
  else if (n <? 32)%N then
    String backslash (String "u" (String "0" (String "0"
      (String (hex_digit (n / 16)) (String (hex_digit (n mod 16)) k)))))
  else String c k.

Fixpoint write_chars (s : string) (k : string) : string :=
  match s with
  | EmptyString => k
  | String c r => write_char c (write_chars r k)
  end.

Definition write_string (s : string) (k : string) : string :=
  String dquote (write_chars s (String dquote k)).

(** [write v k] is the text of [v] followed by [k]. *)
Fixpoint write (v : value) (k : string) : string :=
  match v with
  | JNull => "null" +:+ k
  | JBool true => "true" +:+ k
  | JBool false => "false" +:+ k
  | JNumber n => Number.json_text (Number.StringToNumber n) +:+ k
  | JString s => write_string s k
  | JArray l =>
      String "[" ((fix elements (l : list value) (k : string) : string :=
        match l with
        | [] => k
        | e :: r =>
            write e (match r with [] => k | _ => String "," (elements r k) end)
        end) l (String "]" k))
  | JObject ms =>
      String "{" ((fix members (ms : list (string * value)) (k : string) : string :=
        match ms with
        | [] => k
        | (name, e) :: r =>
            write_string name (String ":"
              (write e (match r with [] => k | _ => String "," (members r k) end)))
        end) ms (String "}" k))
  end.

Definition stringify (v : value) : string := write v "".

(** *** [JSON.parse] *)

Definition is_ws (c : ascii) : bool :=
  let n := N_of_ascii c in
  (n =? 32)%N || (n =? 9)%N || (n =? 10)%N || (n =? 13)%N.

Fixpoint skip_ws (s : string) : string :=
  match s with
  | EmptyString => EmptyString
  | String c r => if is_ws c then skip_ws r else s
  end.

Definition is_digit (c : ascii) : bool :=
  let n := N_of_ascii c in (48 <=? n)%N && (n <=? 57)%N.

Definition hex_value (c : ascii) : option N :=
  let n := N_of_ascii c in
  if (48 <=? n)%N && (n <=? 57)%N then Some (n - 48)%N
  else if (65 <=? n)%N && (n <=? 70)%N then Some (n - 55)%N
  else if (97 <=? n)%N && (n <=? 102)%N then Some (n - 87)%N
  else None.

Definition hex4 (a b c d : ascii) : option N :=
  match hex_value a, hex_value b, hex_value c, hex_value d with
  | Some x, Some y, Some z, Some w => Some (((x * 16 + y) * 16 + z) * 16 + w)%N
  | _, _, _, _ => None
  end.

(** What a string literal denotes, piece by piece: a character written as
    it is (or through a one-letter escape), or a UTF-16 code unit written
    as [\uXXXX]. *)
Inductive piece :=
| Raw (c : ascii)
| Unit16 (u : N).

Definition simple_escape (e : ascii) : option ascii :=
  let n := N_of_ascii e in
  if (n =? 34)%N then Some dquote
  else if (n =? 92)%N then Some backslash
  else if (n =? 47)%N then Some "/"%char
  else if (n =? 98)%N then Some "008"%char
  else if (n =? 102)%N then Some "012"%char
  else if (n =? 110)%N then Some "010"%char
  else if (n =? 114)%N then Some "013"%char
  else if (n =? 116)%N then Some "009"%char
  else None.

Definition push (p : piece) (r : option (list piece * string))
  : option (list piece * string) :=
  match r with
  | Some (ps, rest) => Some (p :: ps, rest)
  | None => None
  end.

(** The characters of a string literal after its opening quote, up to and
    including the closing one. *)
Fixpoint scan_string (s : string) : option (list piece * string) :=
  match s with
  | EmptyString => None
  | String c r =>
      if Ascii.eqb c dquote then Some ([], r)
      else if Ascii.eqb c backslash then
        match r with
        | EmptyString => None
        | String e r1 =>
            match simple_escape e with
            | Some b => push (Raw b) (scan_string r1)
            | None =>
                if Ascii.eqb e "u" then
                  match r1 with
                  | String h1 (String h2 (String h3 (String h4 r2))) =>
                      match hex4 h1 h2 h3 h4 with
                      | Some u => push (Unit16 u) (scan_string r2)
                      | None => None
                      end
                  | _ => None
                  end
                else None
            end
        end
      else if (N_of_ascii c <? 32)%N then None
      else push (Raw c) (scan_string r)
  end.

Definition byte (n : N) : ascii := ascii_of_N n.

(** UTF-8 of a code point (a lone surrogate is written like any other
    three-byte code point). *)
Definition utf8 (u : N) (k : string) : string :=
  if (u <? 128)%N then String (byte u) k
  else if (u <? 2048)%N then
    String (byte (192 + u / 64)) (String (byte (128 + u mod 64)) k)
  else if (u <? 65536)%N then
    String (byte (224 + u / 4096))
      (String (byte (128 + (u / 64) mod 64)) (String (byte (128 + u mod 64)) k))
  else
    String (byte (240 + u / 262144))
      (String (byte (128 + (u / 4096) mod 64))
        (String (byte (128 + (u / 64) mod 64)) (String (byte (128 + u mod 64)) k))).

Definition is_high (u : N) : bool := (55296 <=? u)%N && (u <=? 56319)%N.
Definition is_low (u : N) : bool := (56320 <=? u)%N && (u <=? 57343)%N.
Definition pair_up (hi lo : N) : N :=
  (65536 + (hi - 55296) * 1024 + (lo - 56320))%N.

Fixpoint encode (ps : list piece) : string :=
  match ps with
  | [] => EmptyString
  | Raw c :: r => String c (encode r)
  | Unit16 u :: r =>
      if is_high u then
        match r with
        | Unit16 lo :: r' =>
            if is_low lo then utf8 (pair_up u lo) (encode r')
            else utf8 u (encode r)
        | _ => utf8 u (encode r)
        end
      else utf8 u (encode r)
  end.

Definition parse_string (s : string) : option (string * string) :=
  match scan_string s with
  | Some (ps, rest) => Some (encode ps, rest)
  | None => None
  end.

(** The longest run of digits in front of [s], and what follows it. *)
Fixpoint span_digits (s : string) : string * string :=
  match s with
  | EmptyString => (EmptyString, EmptyString)
  | String c r =>
      if is_digit c then let (ds, rest) := span_digits r in (String c ds, rest)
      else (EmptyString, s)
  end.

(** number = [ - ] int [ . digits ] [ (e|E) [+|-] digits ] *)
Definition parse_int (s : string) : option (string * string) :=
  match s with
  | EmptyString => None
  | String c r =>
      if Ascii.eqb c "0" then Some ("0", r)
      else if is_digit c then
        let (ds, rest) := span_digits r in Some (String c ds, rest)
      else None
  end.

Definition parse_frac (s : string) : option (string * string) :=
  match s with
  | String "." r =>
      match span_digits r with
      | (EmptyString, _) => None
      | (ds, rest) => Some (String "." ds, rest)
      end
  | _ => Some (EmptyString, s)
  end.

Definition parse_exp (s : string) : option (string * string) :=
  match s with
  | EmptyString => Some (EmptyString, s)
  | String c r =>
      if Ascii.eqb c "e" || Ascii.eqb c "E" then
        let (sign, r1) :=
          match r with
          | String c' r' =>
              if Ascii.eqb c' "+" || Ascii.eqb c' "-"
              then (String c' EmptyString, r') else (EmptyString, r)
          | EmptyString => (EmptyString, r)
          end in
        match span_digits r1 with
        | (EmptyString, _) => None
        | (ds, rest) => Some (String c (sign +:+ ds), rest)
        end
      else Some (EmptyString, s)
  end.

Definition parse_number (s : string) : option (string * string) :=
  let (sign, s0) :=
    match s with
    | String "-" r => ("-", r)
    | _ => (EmptyString, s)
    end in
  match parse_int s0 with
  | None => None
  | Some (i, s1) =>
      match parse_frac s1 with
      | None => None
      | Some (f, s2) =>
          match parse_exp s2 with
          | None => None
          | Some (e, s3) => Some (sign +:+ i +:+ f +:+ e, s3)
          end
      end
  end.

Fixpoint strip_prefix (p s : string) : option string :=
  match p with
  | EmptyString => Some s
  | String a p' =>
      match s with
      | EmptyString => None
      | String b s' => if Ascii.eqb a b then strip_prefix p' s' else None
      end
  end.

Definition all_digits (s : string) : bool :=
  forallb is_digit (list_ascii_of_string s).

Fixpoint digits_value (acc : N) (s : string) : N :=
  match s with
  | EmptyString => acc
  | String c r => digits_value (acc * 10 + (N_of_ascii c - 48))%N r
  end.

(** An own property key that is an array index (a canonical numeric string
    below 2^32 - 1): such keys are enumerated first, in ascending order. *)
Definition array_index (k : string) : option N :=
  match k with
  | EmptyString => None
  | String c r =>
      if all_digits k && (String.eqb k "0" || negb (Ascii.eqb c "0"))
         && (String.length k <=? 10)%nat
         && (digits_value 0 k <? 4294967295)%N
      then Some (digits_value 0 k) else None
  end.

Definition enumerated_before (k k' : string) : bool :=
  match array_index k, array_index k' with
  | Some n, Some n' => (n <? n')%N
  | Some _, None => true
  | None, _ => false
  end.

(** CreateDataProperty on the members in enumeration order: a key already
    there keeps its place and takes the new value. *)
Fixpoint define (ms : list (string * value)) (k : string) (v : value)
  : list (string * value) :=
  match ms with
  | [] => [(k, v)]
  | (k', v') :: r =>
      if String.eqb k' k then (k, v) :: r
      else if enumerated_before k k' then (k, v) :: (k', v') :: r
      else (k', v') :: define r k v
  end.

(** One step of the descent, the deeper calls being given: a value is an
    object, an array, a string, a keyword or a number. *)
Definition parse_value_step
    (elements : string -> list value -> option (value * string))
    (members : string -> list (string * value) -> option (value * string))
    (s : string) : option (value * string) :=
  match skip_ws s with
  | EmptyString => None
  | String c r =>
      if Ascii.eqb c "{" then
        match skip_ws r with
        | String "}" r' => Some (JObject [], r')
        | _ => members r []
        end
      else if Ascii.eqb c "[" then
        match skip_ws r with
        | String "]" r' => Some (JArray [], r')
        | _ => elements r []
        end
      else if Ascii.eqb c dquote then
        match parse_string r with
        | Some (x, r') => Some (JString x, r')
        | None => None
        end
      else
        match strip_prefix "true" (String c r) with
        | Some r' => Some (JBool true, r')
        | None =>
        match strip_prefix "false" (String c r) with
        | Some r' => Some (JBool false, r')
        | None =>
        match strip_prefix "null" (String c r) with
        | Some r' => Some (JNull, r')
        | None =>
        match parse_number (String c r) with
        | Some (n, r') => Some (JNumber n, r')
        | None => None
        end end end end
  end.

(** The elements of an array after [acc], up to the closing bracket. *)
Definition parse_elements_step
    (value_ : string -> option (value * string))
    (elements : string -> list value -> option (value * string))
    (s : string) (acc : list value) : option (value * string) :=
  match value_ s with
  | None => None
  | Some (v, r) =>
      match skip_ws r with
      | String "," r' => elements r' (acc ++ [v])
      | String "]" r' => Some (JArray (acc ++ [v]), r')
      | _ => None
      end
  end.

(** The members of an object after [acc], up to the closing brace. *)
Definition parse_members_step
    (value_ : string -> option (value * string))
    (members : string -> list (string * value) -> option (value * string))
    (s : string) (acc : list (string * value)) : option (value * string) :=
  match skip_ws s with
  | String c r =>
      if Ascii.eqb c dquote then
        match parse_string r with
        | None => None
        | Some (k, r1) =>
            match skip_ws r1 with
            | String ":" r2 =>
                match value_ r2 with
                | None => None
                | Some (v, r3) =>
                    match skip_ws r3 with
                    | String "," r4 => members r4 (define acc k v)
                    | String "}" r4 => Some (JObject (define acc k v), r4)
                    | _ => None
                    end
                end
            | _ => None
            end
        end
      else None
  | EmptyString => None
  end.

Fixpoint parse_value (fuel : nat) (s : string) : option (value * string) :=
  match fuel with
  | O => None
  | S fuel =>
      parse_value_step (parse_elements fuel) (parse_members fuel) s
  end
with parse_elements (fuel : nat) (s : string) (acc : list value)
  : option (value * string) :=
  match fuel with
  | O => None
  | S fuel =>
      parse_elements_step (parse_value fuel) (parse_elements fuel) s acc
  end
with parse_members (fuel : nat) (s : string) (acc : list (string * value))
  : option (value * string) :=
  match fuel with
  | O => None
  | S fuel =>
      parse_members_step (parse_value fuel) (parse_members fuel) s acc
  end.

(** Two units of fuel per character are never used up (see
    [JSONFacts.parse_value_fuel]): the recursion is on fuel only to be
    structural. *)
Definition parse (s : string) : option value :=
  match parse_value (S (2 * String.length s)) s with
  | Some (v, rest) =>
      match skip_ws rest with
      | EmptyString => Some v
      | String _ _ => None
      end
  | None => None
  end.

(** *** Values at run time *)

(** Own property [name] of a member list. *)
Fixpoint member (name : string) (ms : list (string * value)) : option value :=
  match ms with
  | [] => None
  | (k, v) :: r => if String.eqb k name then Some v else member name r
  end.

(** [v.name] for a value that came out of [JSON.parse] and a [name] that no
    prototype defines ([clientID], [id_token], ...): [None] is
    [undefined]. *)
Definition get (v : value) (name : string) : outcome (option value) :=
  match v with
  | JNull => Reject TypeError
  | JObject ms => Resolve (member name ms)
  | _ => Resolve None
  end.

(** ToString, as a template literal applies it.  An object prints through
    [Object.prototype.toString] unless it has a member of its own called
    [toString] (never callable, coming from [JSON.parse]), in which case
    no primitive value is found and a TypeError is thrown; an array prints
    its elements joined by commas, [null] as the empty text. *)
Fixpoint ToString (v : value) : outcome string :=
  match v with
  | JNull => Resolve "null"
  | JBool true => Resolve "true"
  | JBool false => Resolve "false"
  | JNumber n => Resolve (Number.toString (Number.StringToNumber n))
  | JString s => Resolve s
  | JArray l =>
      (fix join (l : list value) : outcome string :=
        match l with
        | [] => Resolve EmptyString
        | e :: r =>
            match (match e with JNull => Resolve EmptyString | _ => ToString e end) with
            | Reject err => Reject err
            | Resolve t =>
                match r with
                | [] => Resolve t
                | _ =>
                    match join r with
                    | Reject err => Reject err
                    | Resolve u => Resolve (t +:+ "," +:+ u)
                    end
                end
            end
        end) l
  | JObject ms =>
      match member "toString" ms with
      | Some _ => Reject TypeError
      | None => Resolve "[object Object]"
      end
  end.

Definition interpolate (x : option value) : outcome string :=
  match x with
  | None => Resolve "undefined"
  | Some v => ToString v
  end.

(** *** Auxiliary functions, for the facts about [parse] and [stringify] *)

(** The piece [scan_string] finds where [write_char] wrote [c]. *)
Definition piece_of (c : ascii) : piece :=
  let n := N_of_ascii c in
  if (n <? 32)%N
     && negb ((n =? 8)%N || (n =? 9)%N || (n =? 10)%N || (n =? 12)%N || (n =? 13)%N)
  then Unit16 n else Raw c.

(** The members of an object, as [write] lays them out. *)
Fixpoint write_members (ms : list (string * value)) (k : string) : string :=
  match ms with
  | [] => k
  | (name, e) :: r =>
      write_string name (String ":"
        (write e (match r with [] => k | _ => String "," (write_members r k) end)))
  end.

(** An object whose members are all strings. *)
Definition strings (ms : list (string * string)) : list (string * value) :=
  map (fun kv => (kv.1, JString kv.2)) ms.

Definition define_all (ms : list (string * string)) (acc : list (string * value))
  : list (string * value) :=
  fold_left (fun a kv => define a kv.1 (JString kv.2)) ms acc.

End JSON.

Import JSON.

(** ** The platform: bucket, identity provider, gateway *)

(** What [s3.getObject] resolves with; [Body] is the content of the object
    ([Buffer.toString()] is the identity on byte strings). *)
Record GetObjectOutput := { Body : option string }.

(** The second argument of [fetch]. *)
Record RequestInit := {
  method : string;
  headers : gmap string string;
  body : string
}.

(** The response of [fetch]: the status and the text of the body. *)
Record FetchResponse := { status : Z; text : string }.

(** The requests that leave the Lambda. *)
Inductive Call :=
| S3GetObject (Bucket Key : string)
| Fetch (url : string) (init : RequestInit).

Definition is_fetch (c : Call) : bool :=
  match c with
  | Fetch _ _ => true
  | S3GetObject _ _ => false
  end.

(** The world a handler runs in: the objects of the buckets, by bucket and
    key, and the identity provider behind [fetch]. *)
Record World := {
  objects : gmap (string * string) GetObjectOutput;
  identity_provider : string -> RequestInit -> outcome FetchResponse
}.

(** An [async] computation: the requests it made, in order, and how its
    promise settled. *)
Definition Async (A : Type) : Type := World -> list Call * outcome A.

Definition ret {A} (a : A) : Async A := fun _ => ([], Resolve a).
Definition throw {A} (e : Error) : Async A := fun _ => ([], Reject e).
Definition bind {A B} (m : Async A) (k : A -> Async B) : Async B :=
  fun w =>
    match m w with
    | (t, Resolve a) => let (t', r) := k a w in (t ++ t', r)
    | (t, Reject e) => (t, Reject e)
    end.

Notation "'await' x <- m ;; k" := (bind m (fun x => k))
  (at level 10, x name, m at level 99, k at level 200,
   format "'[v' 'await'  x  <-  m  ;; '/' k ']'").

(** [s3.getObject({Bucket, Key}).promise()] *)
Definition s3_getObject (Bucket Key : string) : Async (option GetObjectOutput) :=
  fun w =>
    ([S3GetObject Bucket Key],
     match objects w !! (Bucket, Key) with
     | Some file => Resolve (Some file)
     | None => Reject (AWSError "NoSuchKey")
     end).

(** [fetch(url, init)] of node-fetch *)
Definition fetch (url : string) (init : RequestInit) : Async FetchResponse :=
  fun w => ([Fetch url init], identity_provider w url init).

(** [resp.json()] of node-fetch *)
Definition json (resp : FetchResponse) : Async value :=
  match JSON.parse (text resp) with
  | Some v => ret v
  | None => throw (FetchError "invalid-json")
  end.

Definition JSON_parse (s : string) : Async value :=
  match JSON.parse s with
  | Some v => ret v
  | None => throw SyntaxError
  end.

(** The text of [v.name] inside a template literal. *)
Definition read (v : value) (name : string) : Async string :=
  match JSON.get v name with
  | Resolve x =>
      match interpolate x with
      | Resolve t => ret t
      | Reject e => throw e
      end
  | Reject e => throw e
  end.

(** The event of the Lambda proxy integration, and the result a handler
    returns. *)
Record Event := {
  event_headers : gmap string string;
  queryStringParameters : option (gmap string string)
}.

Record Response := {
  statusCode : Z;
  response_body : string;
  response_headers : gmap string string
}.

(** What the gateway answers for a handler: the handler's result, or 502
    when its promise is rejected. *)
Definition lambda_proxy (r : outcome Response) : Response :=
  match r with
  | Resolve resp => resp
  | Reject _ =>
      {| statusCode := 502;
         response_body := "{" +:+ q "message" +:+ ": " +:+ q "Internal server error" +:+ "}";
         response_headers := ∅ |}
  end.

(** The names the specification gives to the failures of the handlers: a
    failure of the read of the configuration, a failure of the exchange. *)
Definition ConfigUnavailable (e : Error) : bool :=
  match e with
  | AWSError _ | JsError _ | SyntaxError => true
  | _ => false
  end.

Definition TokenExchangeFailed (e : Error) : bool :=
  match e with
  | FetchError _ => true
  | _ => false
  end.

(** ** The program *)

(** The constants at the top of the module. *)
Record Constants := {
  configFilename : string;
  authDomain : string;
  gatewayDomain : string;
  certificateArn : string;
  region : string;
  basePath : string
}.

Definition gatewayHostname (c : Constants) : string := "api." +:+ gatewayDomain c.

Definition index_ts : Constants := {|
  configFilename := "config.json";
  authDomain := "cnunciato-test";
  gatewayDomain := "nunciato.org";
  certificateArn :=
    "arn:aws:acm:us-east-1:639972025873:certificate/044552ff-3c88-46d8-af77-ddcb366af26c";
  region := "us-east-1";
  basePath := "stage"
|}.

(** A deployment: the constants, and the outputs the cloud resolves
    ([api.url], [client.id], [bucket.id]). *)
Record Deployment := {
  consts : Constants;
  api_url : string;
  client_id : string;
  bucket_id : string
}.

Record AppConfig := {
  clientID : string;
  redirectUrl : string;
  authEndpoint : string;
  apiUrl : string;
  signUpUrl : string;
  signInUrl : string
}.

Section Program.

Variable d : Deployment.

Definition useCustomDomain : string :=
  js_and (js_and (gatewayDomain (consts d)) (gatewayHostname (consts d)))
         (basePath (consts d)).

Definition getAPIUrl (path : option string) : string :=
  if truthy useCustomDomain then
    "https://" +:+ gatewayHostname (consts d) +:+ "/" +:+ basePath (consts d) +:+ "/"
      +:+ match path with
          | Some p => if truthy p then p +:+ "/" else ""
          | None => ""
          end
  else api_url d.

(** The fields of the user pool client that the program sets. *)
Record UserPoolClient := {
  generateSecret : bool;
  allowedOauthFlowsUserPoolClient : bool;
  supportedIdentityProviders : list string;
  allowedOauthFlows : list string;
  allowedOauthScopes : list string;
  callbackUrls : list string;
  logoutUrls : list string
}.

Definition client : UserPoolClient := {|
  generateSecret := false;
  allowedOauthFlowsUserPoolClient := true;
  supportedIdentityProviders := ["COGNITO"];
  allowedOauthFlows := ["code"];
  allowedOauthScopes := ["email"; "profile"; "openid"; "aws.cognito.signin.user.admin"];
  callbackUrls := [getAPIUrl (Some "callback")];
  logoutUrls := [getAPIUrl (Some "logout")]
|}.

(** The object literal [c] that the [apply] callback builds from
    [client.id], [getAPIUrl()], [getAPIUrl("callback")] and
    [domain.domain]. *)
Definition c : AppConfig :=
  let clientID := client_id d in
  let apiUrl := getAPIUrl None in
  let callbackUrl := getAPIUrl (Some "callback") in
  let authEndpoint := authDomain (consts d) in
  let cognitoUrl :=
    "https://" +:+ authEndpoint +:+ ".auth." +:+ region (consts d) +:+ ".amazoncognito.com" in
  let cognitoUrlParams :=
    "client_id=" +:+ clientID +:+ "&response_type=code&redirect_uri=" +:+ callbackUrl in
  {| clientID := clientID;
     apiUrl := apiUrl;
     redirectUrl := callbackUrl;
     authEndpoint := cognitoUrl;
     signUpUrl := cognitoUrl +:+ "/signup?" +:+ cognitoUrlParams;
     signInUrl := cognitoUrl +:+ "/login?" +:+ cognitoUrlParams |}.

(** [c] as a JavaScript object: its properties in the order the literal
    lists them. *)
Definition object_of (c : AppConfig) : value :=
  JObject [("clientID", JString (clientID c));
           ("apiUrl", JString (apiUrl c));
           ("redirectUrl", JString (redirectUrl c));
           ("authEndpoint", JString (authEndpoint c));
           ("signUpUrl", JString (signUpUrl c));
           ("signInUrl", JString (signInUrl c))].

Definition config : string := JSON.stringify (object_of c).

(** [new aws.s3.BucketObject(configFilename, {bucket, content: config})] *)
Definition bucketObject (objs : gmap (string * string) GetObjectOutput)
  : gmap (string * string) GetObjectOutput :=
  <[(bucket_id d, configFilename (consts d)) := {| Body := Some config |}]> objs.

(** [file.Body.toString()] is [Body] itself. *)
Definition getAppConfig : Async value :=
  await file <- s3_getObject (bucket_id d) (configFilename (consts d)) ;;
  match file with
  | None => throw (JsError "Doh!")
  | Some file =>
      match Body file with
      | None => throw (JsError "Doh!")
      | Some Body =>
          await config <- JSON_parse Body ;;
          ret config
      end
  end.

(** [GET /config] *)
Definition config_eventHandler (event : Event) : Async Response :=
  await config <- getAppConfig ;;
  ret {| statusCode := 200;
         response_body := JSON.stringify config;
         response_headers := ∅ |}.

(** [event.queryStringParameters.code], when the guard of the handler lets
    it through. *)
Definition code_of (event : Event) : option string :=
  match queryStringParameters event with
  | None => None
  | Some qs =>
      match qs !! "code" with
      | Some code => if truthy code then Some code else None
      | None => None
      end
  end.

(** [GET /callback].  The two template literals of the result read
    [token.id_token] twice, to the same text: it is read once here. *)
Definition callback_eventHandler (event : Event) : Async Response :=
  match code_of event with
  | None =>
      ret {| statusCode := 400;
             response_body := "Bad request. Code property was missing.";
             response_headers := ∅ |}
  | Some code =>
      await config <- getAppConfig ;;
      await clientID <- read config "clientID" ;;
      await redirectUrl <- read config "redirectUrl" ;;
      let params :=
        ["grant_type=authorization_code";
         "client_id=" +:+ clientID;
         "redirect_uri=" +:+ redirectUrl;
         "code=" +:+ code] in
      await authEndpoint <- read config "authEndpoint" ;;
      await resp <- fetch (authEndpoint +:+ "/oauth2/token")
        {| method := "POST";
           headers := {[ "Content-Type" := "application/x-www-form-urlencoded" ]};
           body := String.concat "&" params |} ;;
      await token <- json resp ;;
      await id_token <- read token "id_token" ;;
      await apiUrl <- read config "apiUrl" ;;
      ret {| statusCode := 302;
             response_body := JSON.stringify (JObject []);
             response_headers :=
               {[ "Set-Cookie" := "id=" +:+ id_token;
                  "Location" := apiUrl +:+ "?id=" +:+ id_token ]} |}
  end.

(** [GET /api], behind the Cognito authorizer *)
Definition api_eventHandler (event : Event) : Async Response :=
  ret {| statusCode := 200;
         response_body := JSON.stringify (JObject [("awesome", JBool true)]);
         response_headers := ∅ |}.

End Program.

(** ** The custom domain *)

(** What [aws.route53.getZone] resolves with. *)
Record Zone := { zone_id : string }.

Record Alias := {
  alias_name : string;
  alias_zoneId : string;
  evaluateTargetHealth : bool
}.

(** The resources [setUpCustomDomain] declares, with the arguments it gives
    them. *)
Inductive Resource :=
| apigateway_DomainName (name : string) (domainName certificateArn : string)
| apigateway_BasePathMapping (name : string)
    (domainName restApi stageName basePath : string)
| route53_Record (name : string) (record_name type zoneId : string)
    (aliases : list Alias).

(** What provisioning does, in order: a lookup of a hosted zone, the
    declaration of a resource. *)
Inductive Provision :=
| GetZone (name : string)
| Register (r : Resource).

(** The cloud at provisioning time: the hosted zones, and the outputs the
    program reads from resources it declared ([api.restAPI],
    [api.stage.stageName], the CloudFront distribution of the domain
    name). *)
Record Cloud := {
  getZone : string -> outcome Zone;
  restAPI : string;
  stageName : string;
  cloudfrontDomainName : string;
  cloudfrontZoneId : string
}.

Definition setUpCustomDomain (k : Constants) (cloud : Cloud)
  : list Provision * outcome unit :=
  match getZone cloud (gatewayDomain k) with
  | Reject e => ([GetZone (gatewayDomain k)], Reject e)
  | Resolve zone =>
      ([GetZone (gatewayDomain k);
        Register (apigateway_DomainName "domain" (gatewayHostname k) (certificateArn k));
        Register (apigateway_BasePathMapping "mapping"
                    (gatewayHostname k) (restAPI cloud) (stageName cloud) (basePath k));
        Register (route53_Record "alias" (gatewayHostname k) "A" (zone_id zone)
                    [{| alias_name := cloudfrontDomainName cloud;
                        alias_zoneId := cloudfrontZoneId cloud;
                        evaluateTargetHealth := false |}])],
       Resolve tt)
  end.

(** [if (useCustomDomain()) { setUpCustomDomain(); }]: the promise is not
    awaited, what remains is what was done. *)
Definition custom_domain (d : Deployment) (cloud : Cloud) : list Provision :=
  if truthy (useCustomDomain d) then (setUpCustomDomain (consts d) cloud).1 else [].

(** ** Vocabulary of the statements *)

(** The key the configuration is published under. *)
Definition config_key (d : Deployment) : string * string :=
  (bucket_id d, configFilename (consts d)).

(** What the identity provider is asked during the exchange. *)
Definition token_url (a : AppConfig) : string := authEndpoint a +:+ "/oauth2/token".

Definition token_request (a : AppConfig) (code : string) : RequestInit :=
  {| method := "POST";
     headers := {[ "Content-Type" := "application/x-www-form-urlencoded" ]};
     body := String.concat "&"
       ["grant_type=authorization_code";
        "client_id=" +:+ clientID a;
        "redirect_uri=" +:+ redirectUrl a;
        "code=" +:+ code] |}.

(** The six members of the published object. *)
Definition members_of (a : AppConfig) : list (string * string) :=
  [("clientID", clientID a); ("apiUrl", apiUrl a); ("redirectUrl", redirectUrl a);
   ("authEndpoint", authEndpoint a); ("signUpUrl", signUpUrl a);
   ("signInUrl", signInUrl a)].

(** A value that has the properties of [interface AppConfig], with the
    strings of [a]. *)
Definition has_AppConfig (v : value) (a : AppConfig) : Prop :=
  JSON.get v "clientID" = Resolve (Some (JString (clientID a)))
  /\ JSON.get v "redirectUrl" = Resolve (Some (JString (redirectUrl a)))
  /\ JSON.get v "authEndpoint" = Resolve (Some (JString (authEndpoint a)))
  /\ JSON.get v "apiUrl" = Resolve (Some (JString (apiUrl a)))
  /\ JSON.get v "signUpUrl" = Resolve (Some (JString (signUpUrl a)))
  /\ JSON.get v "signInUrl" = Resolve (Some (JString (signInUrl a))).

(** [v.name] as a value, for a [v] that is not [null]. *)
Definition prop (v : value) (name : string) : option value :=
  match v with
  | JObject ms => JSON.member name ms
  | _ => None
  end.

(** The text a template literal gives for [v.name], or the TypeError it
    throws. *)
Definition field (v : value) (name : string) : outcome string :=
  interpolate (prop v name).

(** The request of the exchange for the texts [clientID], [redirectUrl] of
    the configuration and a code. *)
Definition exchange_init (clientID redirectUrl code : string) : RequestInit :=
  {| method := "POST";
     headers := {[ "Content-Type" := "application/x-www-form-urlencoded" ]};
     body := String.concat "&"
       ["grant_type=authorization_code";
        "client_id=" +:+ clientID;
        "redirect_uri=" +:+ redirectUrl;
        "code=" +:+ code] |}.

(** What the callback handler builds before it calls [fetch], from a loaded
    configuration of any shape: the URL and the request, or the error of
    the first property that does not print. *)
Definition exchange (cfg : value) (code : string) : outcome (string * RequestInit) :=
  match field cfg "clientID" with
  | Reject e => Reject e
  | Resolve clientID =>
      match field cfg "redirectUrl" with
      | Reject e => Reject e
      | Resolve redirectUrl =>
          match field cfg "authEndpoint" with
          | Reject e => Reject e
          | Resolve authEndpoint =>
              Resolve (authEndpoint +:+ "/oauth2/token",
                       exchange_init clientID redirectUrl code)
          end
      end
  end.

(** The redirect for the texts of [token.id_token] and [config.apiUrl]. *)
Definition redirect_to (apiUrl id_token : string) : Response :=
  {| statusCode := 302;
     response_body := "{}";
     response_headers :=
       {[ "Set-Cookie" := "id=" +:+ id_token;
          "Location" := apiUrl +:+ "?id=" +:+ id_token ]} |}.

(** What the callback handler returns once the token response has parsed
    to a value other than [null], for a configuration and a token of any
    shape. *)
Definition redirect (cfg token : value) : outcome Response :=
  match field token "id_token" with
  | Reject e => Reject e
  | Resolve id_token =>
      match field cfg "apiUrl" with
      | Reject e => Reject e
      | Resolve apiUrl => Resolve (redirect_to apiUrl id_token)
      end
  end.

(** The resources a run of provisioning declared. *)
Fixpoint registered (ps : list Provision) : list Resource :=
  match ps with
  | [] => []
  | Register r :: ps => r :: registered ps
  | GetZone _ :: ps => registered ps
  end.

(** Two identity providers that answer every request alike, up to the
    status of the response. *)
Definition same_text (ip ip' : string -> RequestInit -> outcome FetchResponse) : Prop :=
  forall url init,
    match ip url init, ip' url init with
    | Resolve r, Resolve r' => text r = text r'
    | Reject e, Reject e' => e = e'
    | _, _ => False
    end.

(** The answer to a callback without a code. *)
Definition missing_code : Response :=
  {| statusCode := 400;
     response_body := "Bad request. Code property was missing.";
     response_headers := ∅ |}.

(** ** Sample inputs *)

(** The program as it stands in the repository, deployed: the outputs are
    sample values. *)
Definition sample_deployment : Deployment := {|
  consts := index_ts;
  api_url := "https://abc123.execute-api.us-east-1.amazonaws.com/stage/";
  client_id := "4q2b1example";
  bucket_id := "bucket-0a1b2c3"
|}.

(** The same program with the custom-domain constants left empty. *)
Definition generated_deployment : Deployment := {|
  consts := {| configFilename := "config.json";
               authDomain := "cnunciato-test";
               gatewayDomain := "";
               certificateArn := "";
               region := "us-east-1";
               basePath := "" |};
  api_url := "https://abc123.execute-api.us-east-1.amazonaws.com/stage/";
  client_id := "4q2b1example";
  bucket_id := "bucket-0a1b2c3"
|}.

(** An identity provider that answers every request with status [st] and
    body [t]. *)
Definition answering (st : Z) (t : string) : string -> RequestInit -> outcome FetchResponse :=
  fun _ _ => Resolve {| status := st; text := t |}.

(** The world after provisioning [sample_deployment], with a given identity
    provider. *)
Definition provisioned (ip : string -> RequestInit -> outcome FetchResponse) : World :=
  {| objects := bucketObject sample_deployment ∅; identity_provider := ip |}.

Definition get_callback (params : option (gmap string string)) : Event :=
  {| event_headers := ∅; queryStringParameters := params |}.

(** A token response that carries the identity token [t]. *)
Definition token_body (t : string) : string :=
  "{" +:+ q "id_token" +:+ ":" +:+ q t +:+ "}".

(** The body the identity provider sends when it refuses a code. *)
Definition invalid_grant : string := "{" +:+ q "error" +:+ ":" +:+ q "invalid_grant" +:+ "}".

(** A cloud in which the hosted zone of the repository's domain exists,
    and one with no hosted zone at all. *)
Definition sample_cloud : Cloud := {|
  getZone := fun name =>
    if String.eqb name "nunciato.org" then Resolve {| zone_id := "Z0123456789" |}
    else Reject (AWSError "no matching Route53Zone found");
  restAPI := "abc123";
  stageName := "stage";
  cloudfrontDomainName := "d111111abcdef8.cloudfront.net";
  cloudfrontZoneId := "Z2FDTNDATAQYW2"
|}.

Definition zoneless_cloud : Cloud := {|
  getZone := fun _ => Reject (AWSError "no matching Route53Zone found");
  restAPI := "abc123";
  stageName := "stage";
  cloudfrontDomainName := "d111111abcdef8.cloudfront.net";
  cloudfrontZoneId := "Z2FDTNDATAQYW2"
|}.

(** [sample_deployment] deployed anew, the client having been replaced. *)
Definition redeployed : Deployment := {|
  consts := index_ts;
  api_url := "https://abc123.execute-api.us-east-1.amazonaws.com/stage/";
  client_id := "7k9m3replaced";
  bucket_id := "bucket-0a1b2c3"
|}.

(** Stored configurations that are not of the shape of [AppConfig]: one
    with a numeric [clientID] and no [redirectUrl], one whose [clientID] is
    an object with a member called [toString]. *)
Definition partial_config : string :=
  "{" +:+ q "clientID" +:+ ": 7.0, " +:+ q "authEndpoint" +:+ ": "
      +:+ q "https://auth.example.com" +:+ "}".

Definition unprintable_config : string :=
  "{" +:+ q "clientID" +:+ ": {" +:+ q "toString" +:+ ": 1}, "
      +:+ q "redirectUrl" +:+ ": " +:+ q "https://api.example.com/callback/" +:+ ", "
      +:+ q "authEndpoint" +:+ ": " +:+ q "https://auth.example.com" +:+ "}".

(** Token responses whose [id_token] is a number, and an object with a
    member called [toString]. *)
Definition numeric_token : string := "{" +:+ q "id_token" +:+ ": 1.50e1}".

Definition unprintable_token : string :=
  "{" +:+ q "id_token" +:+ ": {" +:+ q "toString" +:+ ": 1}}".

(** An identity provider that cannot be reached. *)
Definition unreachable : string -> RequestInit -> outcome FetchResponse :=
  fun _ _ => Reject (FetchError "system").

(** A world whose bucket holds [text] under the key of [sample_deployment]. *)
Definition holding (text : string)
    (ip : string -> RequestInit -> outcome FetchResponse) : World :=
  {| objects := {[ config_key sample_deployment := {| Body := Some text |} ]};
     identity_provider := ip |}.

(** ** [JSON.parse] reads back what [JSON.stringify] wrote *)

Module JSONFacts.

Ltac each_char c := destruct c as [[] [] [] [] [] [] [] []].

Lemma scan_write_char c k :
  scan_string (write_char c k) = push (piece_of c) (scan_string k).
Proof. each_char c; reflexivity. Qed.

Lemma encode_piece_of c ps : encode (piece_of c :: ps) = String c (encode ps).
Proof. each_char c; reflexivity. Qed.

Lemma parse_write_chars s k :
  parse_string (write_chars s (String dquote k)) = Some (s, k).
Proof.
  unfold parse_string. induction s as [|c s IH]; [reflexivity|].
  cbn [write_chars]. rewrite scan_write_char.
  destruct (scan_string (write_chars s (String dquote k))) as [[ps rest]|];
    [|discriminate].
  cbn [push]. rewrite encode_piece_of. congruence.
Qed.

Lemma write_object ms k :
  write (JObject ms) k = String "{" (write_members ms (String "}" k)).
Proof.
  destruct ms; reflexivity.
Qed.

Lemma parse_value_string f r :
  parse_value (S f) (String dquote r) =
  match parse_string r with
  | Some (x, r') => Some (JString x, r')
  | None => None
  end.
Proof. reflexivity. Qed.

Lemma parse_members_name f r acc :
  parse_members (S f) (String dquote r) acc =
  match parse_string r with
  | None => None
  | Some (k, r1) =>
      match skip_ws r1 with
      | String ":" r2 =>
          match parse_value f r2 with
          | None => None
          | Some (v, r3) =>
              match skip_ws r3 with
              | String "," r4 => parse_members f r4 (define acc k v)
              | String "}" r4 => Some (JObject (define acc k v), r4)
              | _ => None
              end
          end
      | _ => None
      end
  end.
Proof. reflexivity. Qed.

Lemma skip_ws_colon r : skip_ws (String ":" r) = String ":" r.
Proof. reflexivity. Qed.

Lemma skip_ws_comma r : skip_ws (String "," r) = String "," r.
Proof. reflexivity. Qed.

Lemma skip_ws_brace r : skip_ws (String "}" r) = String "}" r.
Proof. reflexivity. Qed.

Lemma skip_ws_dquote r : skip_ws (String dquote r) = String dquote r.
Proof. reflexivity. Qed.

Lemma write_members_cons name v ms k :
  write_members (strings ((name, v) :: ms)) k
  = write_string name (String ":" (write_string v
      (match ms with
       | [] => k
       | _ => String "," (write_members (strings ms) k)
       end))).
Proof. destruct ms; reflexivity. Qed.

Lemma parse_members_strings ms :
  forall acc f k,
    ms <> [] -> (length ms < f)%nat ->
    parse_members f (write_members (strings ms) (String "}" k)) acc
    = Some (JObject (define_all ms acc), k).
Proof.
  induction ms as [|[name v] ms IH]; intros acc f k Hne Hf; [done|].
  destruct f as [|[|f]]; [simpl in Hf; lia | simpl in Hf; lia |].
  rewrite write_members_cons. unfold write_string.
  rewrite parse_members_name, parse_write_chars, skip_ws_colon.
  rewrite parse_value_string, parse_write_chars.
  destruct ms as [|m ms].
  - reflexivity.
  - rewrite skip_ws_comma. change (define_all ((name, v) :: m :: ms) acc)
      with (define_all (m :: ms) (define acc name (JString v))).
    apply (IH (define acc name (JString v)) (S f) k); [done|].
    simpl in *. lia.
Qed.

Lemma length_write_chars s k :
  (String.length k <= String.length (write_chars s k))%nat.
Proof.
  induction s as [|c s IH]; [done|]. cbn [write_chars].
  etransitivity; [exact IH|]. generalize (write_chars s k) as t. intros t.
  each_char c;
    match goal with
    | |- context [write_char ?a t] =>
        let r := eval vm_compute in (write_char a t) in
        change (write_char a t) with r
    end; cbn [String.length]; lia.
Qed.

Lemma length_write_string s k :
  (String.length k + 2 <= String.length (write_string s k))%nat.
Proof.
  unfold write_string. cbn [String.length].
  pose proof (length_write_chars s (String dquote k)) as H.
  cbn [String.length] in H. lia.
Qed.

Lemma length_write_members ms k :
  (length ms <= String.length (write_members (strings ms) k))%nat.
Proof.
  induction ms as [|[name v] ms IH]; [simpl; lia|].
  rewrite write_members_cons.
  match goal with
  | |- context [write_string name ?t] =>
      pose proof (length_write_string name t) as H1
  end.
  match type of H1 with
  | context [write_string v ?t] =>
      pose proof (length_write_string v t) as H2
  end.
  cbn [String.length] in H1.
  destruct ms as [|m ms]; cbn [length String.length] in *; lia.
Qed.

Lemma write_members_starts ms k :
  ms <> [] -> exists r, write_members (strings ms) k = String dquote r.
Proof.
  destruct ms as [|[name v] ms]; [done|]. intros _.
  rewrite write_members_cons. unfold write_string. eauto.
Qed.

Lemma parse_value_brace f r :
  parse_value (S f) (String "{" (String dquote r))
  = parse_members f (String dquote r) [].
Proof. reflexivity. Qed.

(** An object of strings survives [JSON.stringify] then [JSON.parse], up to
    the enumeration order of its keys. *)
Lemma parse_stringify_strings ms :
  JSON.parse (JSON.stringify (JObject (strings ms)))
  = Some (JObject (define_all ms [])).
Proof.
  unfold JSON.parse, JSON.stringify. rewrite write_object.
  destruct ms as [|m ms]; [reflexivity|].
  pose proof (length_write_members (m :: ms) (String "}" "")) as Hlen.
  destruct (write_members_starts (m :: ms) (String "}" "")) as [r Hr]; [done|].
  rewrite Hr, parse_value_brace, <- Hr.
  rewrite parse_members_strings; [reflexivity | done |].
  cbn [String.length]. lia.
Qed.

(** *** The fuel of [parse_value] is never the reason of a failure *)

Lemma skip_ws_length s : (String.length (skip_ws s) <= String.length s)%nat.
Proof.
  induction s as [|c s IH]; [done|]. cbn [skip_ws].
  destruct (is_ws c); cbn [String.length] in *; lia.
Qed.

Lemma push_Some p res ps r :
  push p res = Some (ps, r) -> exists ps', res = Some (ps', r).
Proof. destruct res as [[ps' r']|]; cbn; [|done]. intros [= _ ->]. eauto. Qed.

Lemma scan_string_length n :
  forall s ps r,
    (String.length s <= n)%nat ->
    scan_string s = Some (ps, r) ->
    (String.length r < String.length s)%nat.
Proof.
  induction n as [|n IH]; intros s ps r Hn H.
  - destruct s; [discriminate | cbn in Hn; lia].
  - destruct s as [|c s]; [discriminate|]. cbn [String.length] in *.
    cbn [scan_string] in H.
    destruct (Ascii.eqb c dquote); [injection H as _ <-; lia|].
    destruct (Ascii.eqb c backslash).
    + destruct s as [|e s]; [discriminate|]. cbn [String.length] in *.
      destruct (simple_escape e).
      * apply push_Some in H as [ps' H]. apply IH in H; lia.
      * destruct (Ascii.eqb e "u"); [|discriminate].
        destruct s as [|h1 [|h2 [|h3 [|h4 s]]]]; try discriminate.
        cbn [String.length] in *.
        destruct (hex4 h1 h2 h3 h4); [|discriminate].
        apply push_Some in H as [ps' H]. apply IH in H; lia.
    + destruct (N_of_ascii c <? 32)%N; [discriminate|].
      apply push_Some in H as [ps' H]. apply IH in H; lia.
Qed.

Lemma parse_string_length s x r :
  parse_string s = Some (x, r) -> (String.length r < String.length s)%nat.
Proof.
  unfold parse_string. destruct (scan_string s) as [[ps r']|] eqn:E; [|done].
  intros [= _ <-]. by eapply scan_string_length.
Qed.

Lemma span_digits_length s ds r :
  span_digits s = (ds, r) -> (String.length r <= String.length s)%nat.
Proof.
  revert ds r. induction s as [|c s IH]; intros ds r; cbn [span_digits].
  - intros [= _ <-]. done.
  - destruct (is_digit c).
    + destruct (span_digits s) as [ds' r'] eqn:E. intros [= _ <-].
      specialize (IH _ _ eq_refl). cbn [String.length]. lia.
    + intros [= _ <-]. done.
Qed.

Lemma parse_int_length s i r :
  parse_int s = Some (i, r) -> (String.length r < String.length s)%nat.
Proof.
  destruct s as [|c s]; [done|]. cbn [parse_int String.length].
  destruct (Ascii.eqb c "0"); [intros [= _ <-]; lia|].
  destruct (is_digit c); [|done].
  destruct (span_digits s) as [ds r'] eqn:E. intros [= _ <-].
  apply span_digits_length in E. lia.
Qed.

Lemma parse_frac_length s f r :
  parse_frac s = Some (f, r) -> (String.length r <= String.length s)%nat.
Proof.
  unfold parse_frac. destruct s as [|c s]; [intros [= _ <-]; done|].
  destruct (Ascii.eqb c ".") eqn:Ec.
  - apply Ascii.eqb_eq in Ec as ->.
    destruct (span_digits s) as [[|x ds] r'] eqn:E; [done|].
    intros [= _ <-]. apply span_digits_length in E. cbn [String.length]. lia.
  - assert (Hne : c <> "."%char) by (by apply Ascii.eqb_neq).
    destruct c as [[] [] [] [] [] [] [] []]; try (intros [= _ <-]; done).
    done.
Qed.

Lemma exp_sign_length s sign r1 :
  match s with
  | String c' r' =>
      if Ascii.eqb c' "+" || Ascii.eqb c' "-"
      then (String c' EmptyString, r') else (EmptyString, s)
  | EmptyString => (EmptyString, s)
  end = (sign, r1) -> (String.length r1 <= String.length s)%nat.
Proof.
  destruct s as [|c' r']; [intros [= _ <-]; done|].
  destruct (Ascii.eqb c' "+" || Ascii.eqb c' "-"); intros [= _ <-];
    cbn [String.length]; lia.
Qed.

Lemma parse_exp_length s e r :
  parse_exp s = Some (e, r) -> (String.length r <= String.length s)%nat.
Proof.
  unfold parse_exp. destruct s as [|c s]; [intros [= _ <-]; done|].
  destruct (Ascii.eqb c "e" || Ascii.eqb c "E"); [|intros [= _ <-]; done].
  pose proof (exp_sign_length s) as Hsign.
  destruct (match s with
            | String c' r' =>
                if Ascii.eqb c' "+" || Ascii.eqb c' "-"
                then (String c' EmptyString, r') else (EmptyString, s)
            | EmptyString => (EmptyString, s)
            end) as [sign r1].
  specialize (Hsign _ _ eq_refl).
  destruct (span_digits r1) as [[|x ds] r'] eqn:E; [done|].
  intros [= _ <-]. apply span_digits_length in E. cbn [String.length]. lia.
Qed.

Lemma minus_sign_length s sign s0 :
  match s with
  | String "-" r => ("-", r)
  | _ => (EmptyString, s)
  end = (sign, s0) -> (String.length s0 <= String.length s)%nat.
Proof.
  destruct s as [|c s']; [intros [= _ <-]; done|].
  destruct c as [[] [] [] [] [] [] [] []]; intros [= _ <-];
    cbn [String.length]; lia.
Qed.

Lemma parse_number_length s n r :
  parse_number s = Some (n, r) -> (String.length r < String.length s)%nat.
Proof.
  unfold parse_number. pose proof (minus_sign_length s) as Hsign.
  destruct (match s with
            | String "-" r => ("-", r)
            | _ => (EmptyString, s)
            end) as [sign s0].
  specialize (Hsign _ _ eq_refl).
  destruct (parse_int s0) as [[i s1]|] eqn:E1; [|done].
  destruct (parse_frac s1) as [[f s2]|] eqn:E2; [|done].
  destruct (parse_exp s2) as [[e s3]|] eqn:E3; [|done].
  intros [= _ <-].
  apply parse_int_length in E1. apply parse_frac_length in E2.
  apply parse_exp_length in E3. lia.
Qed.

Lemma strip_prefix_length p s r :
  strip_prefix p s = Some r -> (String.length r + String.length p = String.length s)%nat.
Proof.
  revert s. induction p as [|a p IH]; intros s; cbn [strip_prefix].
  - intros [= <-]. cbn. lia.
  - destruct s as [|b s]; [done|]. destruct (Ascii.eqb a b); [|done].
    intros H. apply IH in H. cbn [String.length]. lia.
Qed.

Section Steps.

Local Abbreviation len := String.length.

Variables (pv pv' : string -> option (value * string))
          (pe pe' : string -> list value -> option (value * string))
          (pm pm' : string -> list (string * value) -> option (value * string)).

Lemma skip_ws_cons s c r : skip_ws s = String c r -> (len r < len s)%nat.
Proof.
  intros H. pose proof (skip_ws_length s) as Hl. rewrite H in Hl.
  cbn [String.length] in Hl. lia.
Qed.

Lemma parse_value_step_length s v r :
  (forall s' acc v r, (len s' < len s)%nat -> pe s' acc = Some (v, r) -> (len r < len s')%nat) ->
  (forall s' acc v r, (len s' < len s)%nat -> pm s' acc = Some (v, r) -> (len r < len s')%nat) ->
  parse_value_step pe pm s = Some (v, r) -> (len r < len s)%nat.
Proof.
  intros He Hm. unfold parse_value_step.
  destruct (skip_ws s) as [|c t] eqn:Es; [done|].
  apply skip_ws_cons in Es.
  destruct (Ascii.eqb c "{").
  { destruct (skip_ws t) as [|c' t'] eqn:Et.
    - intros H. apply Hm in H; lia.
    - pose proof (skip_ws_cons _ _ _ Et).
      destruct c' as [[] [] [] [] [] [] [] []];
        try (intros Hx; apply Hm in Hx; lia).
      intros [= _ <-]. lia. }
  destruct (Ascii.eqb c "[").
  { destruct (skip_ws t) as [|c' t'] eqn:Et.
    - intros H. apply He in H; lia.
    - pose proof (skip_ws_cons _ _ _ Et).
      destruct c' as [[] [] [] [] [] [] [] []];
        try (intros Hx; apply He in Hx; lia).
      intros [= _ <-]. lia. }
  destruct (Ascii.eqb c dquote).
  { destruct (parse_string t) as [[x t']|] eqn:Ep; [|done].
    intros [= _ <-]. apply parse_string_length in Ep. lia. }
  assert (Hlen : (len (String c t) <= len s)%nat) by (cbn [String.length]; lia).
  revert Hlen. generalize (String c t) as u. intros u Hlen.
  destruct (strip_prefix "true" u) as [t'|] eqn:E1.
  { intros [= _ <-]. apply strip_prefix_length in E1. cbn in E1. lia. }
  destruct (strip_prefix "false" u) as [t'|] eqn:E2.
  { intros [= _ <-]. apply strip_prefix_length in E2. cbn in E2. lia. }
  destruct (strip_prefix "null" u) as [t'|] eqn:E3.
  { intros [= _ <-]. apply strip_prefix_length in E3. cbn in E3. lia. }
  destruct (parse_number u) as [[n t']|] eqn:E4; [|done].
  intros [= _ <-]. apply parse_number_length in E4. lia.
Qed.

Lemma parse_elements_step_length s acc v r :
  (forall v r, pv s = Some (v, r) -> (len r < len s)%nat) ->
  (forall s' acc v r, (len s' < len s)%nat -> pe s' acc = Some (v, r) -> (len r < len s')%nat) ->
  parse_elements_step pv pe s acc = Some (v, r) -> (len r < len s)%nat.
Proof.
  intros Hv He. unfold parse_elements_step.
  destruct (pv s) as [[x t]|]; [|done]. specialize (Hv _ _ eq_refl).
  destruct (skip_ws t) as [|c' t'] eqn:Et; [done|].
  pose proof (skip_ws_cons _ _ _ Et).
  destruct c' as [[] [] [] [] [] [] [] []]; try done;
    first [intros [= _ <-]; lia | intros H'; apply He in H'; lia].
Qed.

Lemma parse_members_step_length s acc v r :
  (forall s' v r, (len s' < len s)%nat -> pv s' = Some (v, r) -> (len r < len s')%nat) ->
  (forall s' acc v r, (len s' < len s)%nat -> pm s' acc = Some (v, r) -> (len r < len s')%nat) ->
  parse_members_step pv pm s acc = Some (v, r) -> (len r < len s)%nat.
Proof.
  intros Hv Hm. unfold parse_members_step.
  destruct (skip_ws s) as [|c t] eqn:Es; [done|].
  apply skip_ws_cons in Es.
  destruct (Ascii.eqb c dquote); [|done].
  destruct (parse_string t) as [[k t1]|] eqn:Ep; [|done].
  apply parse_string_length in Ep.
  destruct (skip_ws t1) as [|c1 t2] eqn:E1; [done|].
  pose proof (skip_ws_cons _ _ _ E1).
  destruct c1 as [[] [] [] [] [] [] [] []]; try done.
  destruct (pv t2) as [[x t3]|] eqn:Ev; [|done].
  apply Hv in Ev; [|lia].
  destruct (skip_ws t3) as [|c3 t4] eqn:E3; [done|].
  pose proof (skip_ws_cons _ _ _ E3).
  destruct c3 as [[] [] [] [] [] [] [] []]; try done;
    first [intros [= _ <-]; lia | intros H'; apply Hm in H'; lia].
Qed.

(** The steps look at the deeper calls on shorter texts only. *)
Lemma parse_value_step_ext s :
  (forall s' acc, (len s' < len s)%nat -> pe s' acc = pe' s' acc) ->
  (forall s' acc, (len s' < len s)%nat -> pm s' acc = pm' s' acc) ->
  parse_value_step pe pm s = parse_value_step pe' pm' s.
Proof.
  intros He Hm. unfold parse_value_step.
  destruct (skip_ws s) as [|c t] eqn:Es; [done|].
  apply skip_ws_cons in Es.
  rewrite (He t [] Es), (Hm t [] Es). reflexivity.
Qed.

Lemma parse_elements_step_ext s acc :
  pv s = pv' s ->
  (forall v r, pv s = Some (v, r) -> (len r < len s)%nat) ->
  (forall s' acc, (len s' + 2 <= len s)%nat -> pe s' acc = pe' s' acc) ->
  parse_elements_step pv pe s acc = parse_elements_step pv' pe' s acc.
Proof.
  intros Hv Hl He. unfold parse_elements_step. rewrite <- Hv.
  destruct (pv s) as [[x t]|]; [|done]. specialize (Hl _ _ eq_refl).
  destruct (skip_ws t) as [|c' t'] eqn:Et; [done|].
  pose proof (skip_ws_cons _ _ _ Et).
  rewrite (He t' (acc ++ [x])) by lia. reflexivity.
Qed.

Lemma parse_members_step_ext s acc :
  (forall s', (len s' + 2 <= len s)%nat -> pv s' = pv' s') ->
  (forall s' v r, pv s' = Some (v, r) -> (len r < len s')%nat) ->
  (forall s' acc, (len s' + 2 <= len s)%nat -> pm s' acc = pm' s' acc) ->
  parse_members_step pv pm s acc = parse_members_step pv' pm' s acc.
Proof.
  intros Hv Hl Hm. unfold parse_members_step.
  destruct (skip_ws s) as [|c t] eqn:Es; [done|].
  apply skip_ws_cons in Es.
  destruct (Ascii.eqb c dquote); [|done].
  destruct (parse_string t) as [[k t1]|] eqn:Ep; [|done].
  apply parse_string_length in Ep.
  destruct (skip_ws t1) as [|c1 t2] eqn:E1; [done|].
  pose proof (skip_ws_cons _ _ _ E1).
  rewrite <- (Hv t2) by lia.
  destruct (pv t2) as [[x t3]|] eqn:Ev;
    [|destruct c1 as [[] [] [] [] [] [] [] []]; reflexivity].
  apply Hl in Ev.
  destruct (skip_ws t3) as [|c3 t4] eqn:E3;
    [destruct c1 as [[] [] [] [] [] [] [] []]; reflexivity|].
  pose proof (skip_ws_cons _ _ _ E3).
  rewrite (Hm t4 (define acc k x)) by lia. reflexivity.
Qed.

End Steps.

(** What is left after a value is shorter than the text it was read
    from. *)
Lemma parse_length n :
  forall s,
    (forall v r, parse_value n s = Some (v, r) -> (String.length r < String.length s)%nat)
    /\ (forall acc v r, parse_elements n s acc = Some (v, r) ->
          (String.length r < String.length s)%nat)
    /\ (forall acc v r, parse_members n s acc = Some (v, r) ->
          (String.length r < String.length s)%nat).
Proof.
  induction n as [|n IH]; intros s; [repeat split; intros; discriminate|].
  cbn [parse_value parse_elements parse_members]. repeat split.
  - intros v r. apply parse_value_step_length.
    + intros s' acc v' r' _. apply (IH s').
    + intros s' acc v' r' _. apply (IH s').
  - intros acc v r. apply parse_elements_step_length.
    + apply (IH s).
    + intros s' acc' v' r' _. apply (IH s').
  - intros acc v r. apply parse_members_step_length.
    + intros s' v' r' _. apply (IH s').
    + intros s' acc' v' r' _. apply (IH s').
Qed.

(** Above two units per character the amount of fuel does not matter. *)
Lemma parse_fuel n :
  forall m s,
    ((2 * String.length s < n)%nat -> (2 * String.length s < m)%nat ->
     parse_value n s = parse_value m s)
    /\ (forall acc,
          (2 * String.length s + 1 < n)%nat -> (2 * String.length s + 1 < m)%nat ->
          parse_elements n s acc = parse_elements m s acc)
    /\ (forall acc,
          (2 * String.length s + 1 < n)%nat -> (2 * String.length s + 1 < m)%nat ->
          parse_members n s acc = parse_members m s acc).
Proof.
  induction n as [|n IH]; intros m s; [repeat split; intros; lia|].
  destruct m as [|m]; [repeat split; intros; lia|].
  cbn [parse_value parse_elements parse_members]. repeat split.
  - intros Hn Hm. apply parse_value_step_ext.
    + intros s' acc Hs. apply (IH m s'); lia.
    + intros s' acc Hs. apply (IH m s'); lia.
  - intros acc Hn Hm. apply parse_elements_step_ext.
    + apply (IH m s); lia.
    + apply (parse_length n s).
    + intros s' acc' Hs. apply (IH m s'); lia.
  - intros acc Hn Hm. apply parse_members_step_ext.
    + intros s' Hs. apply (IH m s'); lia.
    + intros s'. apply (parse_length n s').
    + intros s' acc' Hs. apply (IH m s'); lia.
Qed.

Lemma parse_value_fuel n s :
  (2 * String.length s < n)%nat ->
  parse_value n s = parse_value (S (2 * String.length s)) s.
Proof. intros H. apply (parse_fuel n (S (2 * String.length s)) s); lia. Qed.

End JSONFacts.

(** ** Base-URL derivation *)

Section Strings.

Lemma append_assoc (a b c : string) : (a +:+ b) +:+ c = a +:+ (b +:+ c).
Proof.
  induction a as [|x a IH]; [reflexivity|].
  change (String x ((a +:+ b) +:+ c) = String x (a +:+ (b +:+ c))).
  by rewrite IH.
Qed.

Lemma append_empty_r (a : string) : a +:+ "" = a.
Proof.
  induction a as [|x a IH]; [reflexivity|].
  change (String x (a +:+ "") = String x a). by rewrite IH.
Qed.

Lemma truthy_true (s : string) : truthy s = true <-> s <> "".
Proof. destruct s; cbn; split; intros; congruence. Qed.

Lemma ends_with_unfold (suffix s : string) :
  ends_with suffix s
  = if String.eqb suffix s then true
    else match s with
         | EmptyString => false
         | String _ r => ends_with suffix r
         end.
Proof. destruct s; reflexivity. Qed.

Lemma ends_with_append (a b : string) : ends_with b (a +:+ b) = true.
Proof.
  induction a as [|x a IH].
  - change ("" +:+ b) with b. rewrite ends_with_unfold.
    by rewrite String.eqb_refl.
  - change (String x a +:+ b) with (String x (a +:+ b)).
    rewrite ends_with_unfold.
    destruct (String.eqb b (String x (a +:+ b))); [reflexivity | exact IH].
Qed.

End Strings.

(** Custom-domain mode is not a flag of its own: it is on exactly when the
    domain and the base path are both non-empty. *)
Lemma useCustomDomain_truthy (d : Deployment) :
  truthy (useCustomDomain d)
  = truthy (gatewayDomain (consts d)) && truthy (basePath (consts d)).
Proof.
  unfold useCustomDomain, js_and, gatewayHostname.
  destruct (gatewayDomain (consts d)); reflexivity.
Qed.

(** Without custom-domain mode the sub-path is not used: every call yields
    [api.url]. *)
Lemma getAPIUrl_generated (d : Deployment) (path : option string) :
  truthy (useCustomDomain d) = false -> getAPIUrl d path = api_url d.
Proof. intros H. unfold getAPIUrl. by rewrite H. Qed.

(** C2, as stated, fails.  With the constants of the repository the
    callback URL is [https://api.nunciato.org/stage/callback/]: the base URL
    followed by [callback/], not by [/callback], and it does not end in
    [/callback].  With the custom-domain constants emptied the callback and
    logout URLs are the generated URL itself, with no suffix at all. *)
Lemma getAPIUrl_suffix_counterexample :
  getAPIUrl sample_deployment (Some "callback")
    = "https://api.nunciato.org/stage/callback/"
  /\ getAPIUrl sample_deployment None = "https://api.nunciato.org/stage/"
  /\ getAPIUrl sample_deployment (Some "callback")
     <> getAPIUrl sample_deployment None +:+ "/callback"
  /\ ends_with "/callback" (getAPIUrl sample_deployment (Some "callback")) = false
  /\ getAPIUrl generated_deployment (Some "callback") = api_url generated_deployment
  /\ getAPIUrl generated_deployment (Some "logout") = api_url generated_deployment
  /\ ends_with "/callback" (getAPIUrl generated_deployment (Some "callback")) = false.
Proof. repeat split; try reflexivity. vm_compute. discriminate. Qed.

(** C2, amended: in custom-domain mode the URL derived for a non-empty
    sub-path [p] is the derived base URL followed by [p] and a slash, so the
    callback and logout URLs are the base URL followed by [callback/] and
    [logout/]. *)
Theorem getAPIUrl_subpath (d : Deployment) (p : string) :
  truthy (useCustomDomain d) = true ->
  p <> "" ->
  getAPIUrl d (Some p) = getAPIUrl d None +:+ p +:+ "/"
  /\ getAPIUrl d (Some "callback") = getAPIUrl d None +:+ "callback/"
  /\ getAPIUrl d (Some "logout") = getAPIUrl d None +:+ "logout/".
Proof.
  intros Hc Hp. apply truthy_true in Hp. unfold getAPIUrl. rewrite Hc, Hp.
  rewrite append_empty_r, !append_assoc. repeat split; reflexivity.
Qed.

Lemma getAPIUrl_subpath_witness :
  getAPIUrl sample_deployment (Some "callback")
    = getAPIUrl sample_deployment None +:+ "callback" +:+ "/"
  /\ getAPIUrl sample_deployment (Some "callback")
     = getAPIUrl sample_deployment None +:+ "callback/"
  /\ getAPIUrl sample_deployment (Some "logout")
     = getAPIUrl sample_deployment None +:+ "logout/".
Proof.
  apply (getAPIUrl_subpath sample_deployment "callback");
    [reflexivity | discriminate].
Defined.

(** C10: in custom-domain mode every derived URL ends with a slash; with no
    sub-path it is [https://{hostname}/{basePath}/], with a sub-path [p] it
    is [https://{hostname}/{basePath}/{p}/].  (A sub-path is a non-empty
    string: [path ? ... : ...] takes the empty string for no sub-path.) *)
Theorem getAPIUrl_custom_trailing_slash (d : Deployment) (path : option string) :
  truthy (useCustomDomain d) = true ->
  ends_with "/" (getAPIUrl d path) = true
  /\ getAPIUrl d None
     = "https://" +:+ gatewayHostname (consts d) +:+ "/" +:+ basePath (consts d) +:+ "/"
  /\ getAPIUrl d (Some "")
     = "https://" +:+ gatewayHostname (consts d) +:+ "/" +:+ basePath (consts d) +:+ "/"
  /\ forall p, p <> "" ->
       getAPIUrl d (Some p)
       = "https://" +:+ gatewayHostname (consts d) +:+ "/" +:+ basePath (consts d)
           +:+ "/" +:+ p +:+ "/".
Proof.
  intros Hc. unfold getAPIUrl. rewrite Hc.
  split; [|split; [reflexivity|split; [reflexivity|]]].
  - destruct path as [p|]; [destruct p as [|x p]|]; cbn [truthy].
    + rewrite append_empty_r, <- !append_assoc. apply ends_with_append.
    + rewrite <- !append_assoc. apply ends_with_append.
    + rewrite append_empty_r, <- !append_assoc. apply ends_with_append.
  - intros p Hp. apply truthy_true in Hp. by rewrite Hp.
Qed.

Lemma getAPIUrl_custom_trailing_slash_witness :
  ends_with "/" (getAPIUrl sample_deployment (Some "logout")) = true
  /\ getAPIUrl sample_deployment None = "https://api.nunciato.org/stage/"
  /\ getAPIUrl sample_deployment (Some "callback")
     = "https://api.nunciato.org/stage/callback/".
Proof.
  destruct (getAPIUrl_custom_trailing_slash sample_deployment (Some "logout"))
    as (H1 & H2 & _ & H4); [reflexivity|].
  split; [exact H1|]. split; [exact H2|].
  apply (H4 "callback"). discriminate.
Defined.

(** ** Configuration Resolution *)

(** Reading the serialization of an [AppConfig] gives the object back, its
    members in the same order. *)
Lemma parse_stringify_AppConfig (a : AppConfig) :
  JSON.parse (JSON.stringify (object_of a)) = Some (object_of a).
Proof.
  change (object_of a) with (JObject (JSON.strings (members_of a))).
  rewrite JSONFacts.parse_stringify_strings. reflexivity.
Qed.

Lemma parse_config (d : Deployment) : JSON.parse (config d) = Some (object_of (c d)).
Proof. apply parse_stringify_AppConfig. Qed.

Lemma object_of_has_AppConfig (a : AppConfig) : has_AppConfig (object_of a) a.
Proof. repeat split. Qed.

(** C8: in the assembled configuration [signUpUrl] is [authEndpoint]
    followed by [/signup?] and the query, [signInUrl] is [authEndpoint]
    followed by [/login?] and the same query, the query being [client_id]
    (the configuration's [clientID]), [response_type=code], [redirect_uri]
    (the configuration's [redirectUrl]) in that order; and the published
    text reads back as these very fields. *)
Theorem sign_urls (d : Deployment) :
  let a := c d in
  let Q := "client_id=" +:+ clientID a +:+ "&response_type=code"
           +:+ "&redirect_uri=" +:+ redirectUrl a in
  signUpUrl a = authEndpoint a +:+ "/signup?" +:+ Q
  /\ signInUrl a = authEndpoint a +:+ "/login?" +:+ Q
  /\ clientID a = client_id d
  /\ redirectUrl a = getAPIUrl d (Some "callback")
  /\ authEndpoint a
     = "https://" +:+ authDomain (consts d) +:+ ".auth." +:+ region (consts d)
         +:+ ".amazoncognito.com"
  /\ JSON.parse (config d) = Some (object_of a).
Proof.
  cbv zeta. repeat split; try reflexivity. apply parse_config.
Qed.

(** C9: whatever the mode, the [redirectUrl] of the published configuration
    is the one callback URL registered with the user pool client: the field
    of the assembled object is that URL, and the published text parses to
    an object whose [redirectUrl] member is that URL. *)
Theorem redirectUrl_registered (d : Deployment) :
  exists u,
    callbackUrls (client d) = [u]
    /\ redirectUrl (c d) = u
    /\ exists v,
         JSON.parse (config d) = Some v
         /\ JSON.get v "redirectUrl" = Resolve (Some (JString u)).
Proof.
  exists (getAPIUrl d (Some "callback")). split; [reflexivity|].
  split; [reflexivity|]. exists (object_of (c d)).
  split; [apply parse_config | reflexivity].
Qed.

(** ** The handlers *)

Section Handlers.

Variable d : Deployment.

(** [getAppConfig] makes one request, to the bucket, and settles on what it
    finds there. *)
Lemma getAppConfig_run (w : World) :
  getAppConfig d w =
  ([S3GetObject (bucket_id d) (configFilename (consts d))],
   match objects w !! config_key d with
   | None => Reject (AWSError "NoSuchKey")
   | Some file =>
       match Body file with
       | None => Reject (JsError "Doh!")
       | Some text =>
           match JSON.parse text with
           | Some v => Resolve v
           | None => Reject SyntaxError
           end
       end
   end).
Proof.
  unfold getAppConfig, bind, s3_getObject, config_key.
  destruct (objects w !! (bucket_id d, configFilename (consts d))) as [[[text|]]|];
    cbn [Body]; unfold JSON_parse; try destruct (JSON.parse text); reflexivity.
Qed.

Lemma getAppConfig_fails (w : World) (e : Error) :
  (getAppConfig d w).2 = Reject e -> ConfigUnavailable e = true.
Proof.
  rewrite getAppConfig_run. cbn [snd].
  destruct (objects w !! config_key d) as [[[text|]]|]; cbn [Body];
    [destruct (JSON.parse text)| |]; intros H; inversion H; reflexivity.
Qed.

Lemma read_string (v : value) (name s : string) (w : World) :
  JSON.get v name = Resolve (Some (JString s)) -> read v name w = ([], Resolve s).
Proof. intros H. unfold read. by rewrite H. Qed.

Lemma code_of_Some (event : Event) (qs : gmap string string) (code : string) :
  queryStringParameters event = Some qs ->
  qs !! "code" = Some code ->
  code <> "" ->
  code_of event = Some code.
Proof.
  intros Hq Hc Hne. unfold code_of. rewrite Hq, Hc.
  apply truthy_true in Hne. by rewrite Hne.
Qed.

(** The whole run of the callback handler once the code is there and the
    configuration has loaded. *)
Lemma callback_run (event : Event) (code : string) (cfg : value) (a : AppConfig)
    (w : World) :
  code_of event = Some code ->
  (getAppConfig d w).2 = Resolve cfg ->
  has_AppConfig cfg a ->
  callback_eventHandler d event w =
  ([S3GetObject (bucket_id d) (configFilename (consts d));
    Fetch (token_url a) (token_request a code)],
   match identity_provider w (token_url a) (token_request a code) with
   | Reject e => Reject e
   | Resolve resp =>
       match JSON.parse (text resp) with
       | None => Reject (FetchError "invalid-json")
       | Some token =>
           match JSON.get token "id_token" with
           | Reject e => Reject e
           | Resolve id_token =>
               match interpolate id_token with
               | Reject e => Reject e
               | Resolve t =>
                   Resolve
                     {| statusCode := 302;
                        response_body := "{}";
                        response_headers :=
                          {[ "Set-Cookie" := "id=" +:+ t;
                             "Location" := apiUrl a +:+ "?id=" +:+ t ]} |}
               end
           end
       end
   end).
Proof.
  intros Hcode Hcfg (H1 & H2 & H3 & H4 & _).
  unfold callback_eventHandler. rewrite Hcode. unfold bind.
  destruct (getAppConfig d w) as [t r] eqn:E.
  rewrite getAppConfig_run in E. injection E as <- _.
  cbn [snd] in Hcfg. subst r.
  rewrite (read_string _ _ _ w H1), (read_string _ _ _ w H2),
    (read_string _ _ _ w H3).
  unfold fetch. fold (token_url a). fold (token_request a code).
  destruct (identity_provider w (token_url a) (token_request a code))
    as [resp|e]; [|reflexivity].
  unfold json. destruct (JSON.parse (text resp)) as [token|]; [|reflexivity].
  unfold ret at 1. unfold read at 1.
  destruct (JSON.get token "id_token") as [id_token|e]; [|reflexivity].
  destruct (interpolate id_token) as [t|e]; [|reflexivity].
  unfold ret at 1. rewrite (read_string _ _ _ w H4). reflexivity.
Qed.

End Handlers.

(** ** The config-fetch handler *)

Lemma config_eventHandler_run (d : Deployment) (event : Event) (w : World) :
  config_eventHandler d event w =
  ((getAppConfig d w).1,
   match (getAppConfig d w).2 with
   | Resolve v =>
       Resolve {| statusCode := 200;
                  response_body := JSON.stringify v;
                  response_headers := ∅ |}
   | Reject e => Reject e
   end).
Proof.
  unfold config_eventHandler, bind.
  destruct (getAppConfig d w) as [t [v|e]]; cbn [fst snd ret]; [|reflexivity].
  by rewrite app_nil_r.
Qed.

(** C7: when the object under the well-known key has a body that parses,
    the handler answers 200 with the parsed configuration as JSON; when the
    object is absent, has no body, or does not parse, the handler's promise
    is rejected (the gateway answers 502) and no response object, hence no
    configuration of any kind, is returned. *)
Theorem config_fetch_contract (d : Deployment) (event : Event) (w : World) :
  (forall text v,
     objects w !! config_key d = Some {| Body := Some text |} ->
     JSON.parse text = Some v ->
     (config_eventHandler d event w).2
     = Resolve {| statusCode := 200;
                  response_body := JSON.stringify v;
                  response_headers := ∅ |})
  /\ (objects w !! config_key d = None
      \/ objects w !! config_key d = Some {| Body := None |}
      \/ (exists text, objects w !! config_key d = Some {| Body := Some text |}
                       /\ JSON.parse text = None) ->
      exists e,
        (config_eventHandler d event w).2 = Reject e
        /\ ConfigUnavailable e = true
        /\ statusCode (lambda_proxy (config_eventHandler d event w).2) = 502%Z).
Proof.
  rewrite config_eventHandler_run, getAppConfig_run. cbn [fst snd]. split.
  - intros text v -> . cbn [Body]. by intros ->.
  - intros [-> | [-> | (text & -> & Hp)]]; cbn [Body]; [| |rewrite Hp];
      eexists; repeat split; reflexivity.
Qed.

Lemma config_fetch_contract_witness :
  (config_eventHandler sample_deployment (get_callback None)
     (provisioned (answering 200 ""))).2
  = Resolve {| statusCode := 200;
               response_body := JSON.stringify (object_of (c sample_deployment));
               response_headers := ∅ |}
  /\ exists e,
       (config_eventHandler sample_deployment (get_callback None)
          {| objects := ∅; identity_provider := answering 200 "" |}).2 = Reject e
       /\ ConfigUnavailable e = true
       /\ statusCode (lambda_proxy
            (config_eventHandler sample_deployment (get_callback None)
               {| objects := ∅; identity_provider := answering 200 "" |}).2) = 502%Z.
Proof.
  split.
  - apply (proj1 (config_fetch_contract sample_deployment (get_callback None)
                    (provisioned (answering 200 ""))) (config sample_deployment));
      vm_compute; reflexivity.
  - apply (proj2 (config_fetch_contract sample_deployment (get_callback None)
                    {| objects := ∅; identity_provider := answering 200 "" |})).
    left. reflexivity.
Defined.

(** C6: once Configuration Resolution has published the configuration, the
    body the handler answers with is the published text, byte for byte (so
    it is for the serialization of any [AppConfig]); while no object sits
    under the key, the handler yields no body: its promise is rejected with
    the bucket's [NoSuchKey], a [ConfigUnavailable] failure. *)
Theorem config_fetch_published (d : Deployment) (event : Event)
    (objs : gmap (string * string) GetObjectOutput)
    (ip : string -> RequestInit -> outcome FetchResponse) :
  (config_eventHandler d event
     {| objects := bucketObject d objs; identity_provider := ip |}).2
  = Resolve {| statusCode := 200;
               response_body := config d;
               response_headers := ∅ |}
  /\ (forall a : AppConfig,
        (config_eventHandler d event
           {| objects := <[config_key d := {| Body := Some (JSON.stringify (object_of a)) |}]> objs;
              identity_provider := ip |}).2
        = Resolve {| statusCode := 200;
                     response_body := JSON.stringify (object_of a);
                     response_headers := ∅ |})
  /\ (config_eventHandler d event
        {| objects := delete (config_key d) objs; identity_provider := ip |}).2
     = Reject (AWSError "NoSuchKey")
  /\ (config_eventHandler d event {| objects := ∅; identity_provider := ip |}).2
     = Reject (AWSError "NoSuchKey")
  /\ ConfigUnavailable (AWSError "NoSuchKey") = true.
Proof.
  assert (Hpub : forall a : AppConfig,
    (config_eventHandler d event
       {| objects := <[config_key d := {| Body := Some (JSON.stringify (object_of a)) |}]> objs;
          identity_provider := ip |}).2
    = Resolve {| statusCode := 200;
                 response_body := JSON.stringify (object_of a);
                 response_headers := ∅ |}).
  { intros a. rewrite config_eventHandler_run, getAppConfig_run. cbn [fst snd objects].
    rewrite lookup_insert_eq. cbn [Body]. by rewrite parse_stringify_AppConfig. }
  split; [exact (Hpub (c d))|]. split; [exact Hpub|].
  rewrite !config_eventHandler_run, !getAppConfig_run. cbn [fst snd objects].
  rewrite lookup_delete_eq, lookup_empty. auto.
Qed.

(** ** The callback handler *)

(** C3: with no query string parameters, or none called [code], the handler
    answers 400 with a message and makes no request at all: neither the
    token exchange nor the read of the configuration. *)
Theorem callback_missing_code (d : Deployment) (event : Event) (w : World) :
  (queryStringParameters event = None
   \/ exists qs, queryStringParameters event = Some qs /\ qs !! "code" = None) ->
  callback_eventHandler d event w = ([], Resolve missing_code)
  /\ filter is_fetch (callback_eventHandler d event w).1 = [].
Proof.
  intros H. assert (Hc : code_of event = None).
  { unfold code_of. destruct H as [-> | (qs & -> & ->)]; reflexivity. }
  unfold callback_eventHandler. rewrite Hc. split; reflexivity.
Qed.

Lemma callback_missing_code_witness :
  (callback_eventHandler sample_deployment (get_callback None)
     (provisioned (answering 200 "")) = ([], Resolve missing_code)
   /\ filter is_fetch
        (callback_eventHandler sample_deployment (get_callback None)
           (provisioned (answering 200 ""))).1 = [])
  /\ (callback_eventHandler sample_deployment
        (get_callback (Some {[ "state" := "xyz" ]}))
        (provisioned (answering 200 "")) = ([], Resolve missing_code)
      /\ filter is_fetch
           (callback_eventHandler sample_deployment
              (get_callback (Some {[ "state" := "xyz" ]}))
              (provisioned (answering 200 ""))).1 = []).
Proof.
  split.
  - apply callback_missing_code. left. reflexivity.
  - apply callback_missing_code. right. exists {[ "state" := "xyz" ]}.
    split; reflexivity.
Defined.

(** An empty [code] is a missing one for the guard of the handler. *)
Lemma callback_empty_code (d : Deployment) (event : Event) (w : World)
    (qs : gmap string string) :
  queryStringParameters event = Some qs ->
  qs !! "code" = Some "" ->
  callback_eventHandler d event w = ([], Resolve missing_code).
Proof.
  intros Hq Hc. unfold callback_eventHandler, code_of. by rewrite Hq, Hc.
Qed.

(** C5: with a (non-empty) [code] and a loaded configuration the handler
    makes exactly one [fetch]: a POST to [authEndpoint] + [/oauth2/token],
    content type [application/x-www-form-urlencoded], whose body is
    [grant_type=authorization_code], [client_id], [redirect_uri], [code]
    joined by [&] in that order; whatever the answer, there is no second
    one. *)
Theorem callback_single_post (d : Deployment) (event : Event)
    (qs : gmap string string) (code : string) (cfg : value) (a : AppConfig)
    (w : World) :
  queryStringParameters event = Some qs ->
  qs !! "code" = Some code ->
  code <> "" ->
  (getAppConfig d w).2 = Resolve cfg ->
  has_AppConfig cfg a ->
  filter is_fetch (callback_eventHandler d event w).1
  = [Fetch (authEndpoint a +:+ "/oauth2/token")
       {| method := "POST";
          headers := {[ "Content-Type" := "application/x-www-form-urlencoded" ]};
          body := String.concat "&"
            ["grant_type=authorization_code";
             "client_id=" +:+ clientID a;
             "redirect_uri=" +:+ redirectUrl a;
             "code=" +:+ code] |}]
  /\ length (filter is_fetch (callback_eventHandler d event w).1) = 1%nat.
Proof.
  intros Hq Hc Hne Hcfg Ha.
  rewrite (callback_run d event code cfg a w
             (code_of_Some event qs code Hq Hc Hne) Hcfg Ha).
  split; reflexivity.
Qed.

Lemma callback_single_post_witness :
  filter is_fetch
    (callback_eventHandler sample_deployment
       (get_callback (Some {[ "code" := "abc" ]}))
       (provisioned (answering 200 (token_body "tok123")))).1
  = [Fetch "https://cnunciato-test.auth.us-east-1.amazoncognito.com/oauth2/token"
       {| method := "POST";
          headers := {[ "Content-Type" := "application/x-www-form-urlencoded" ]};
          body := "grant_type=authorization_code&client_id=4q2b1example&redirect_uri=https://api.nunciato.org/stage/callback/&code=abc" |}]
  /\ length (filter is_fetch
       (callback_eventHandler sample_deployment
          (get_callback (Some {[ "code" := "abc" ]}))
          (provisioned (answering 200 (token_body "tok123")))).1) = 1%nat.
Proof.
  apply (callback_single_post sample_deployment
           (get_callback (Some {[ "code" := "abc" ]})) {[ "code" := "abc" ]} "abc"
           (object_of (c sample_deployment)) (c sample_deployment)
           (provisioned (answering 200 (token_body "tok123")))).
  - reflexivity.
  - reflexivity.
  - discriminate.
  - vm_compute. reflexivity.
  - apply object_of_has_AppConfig.
Defined.

(** C4: with a (non-empty) [code], a loaded configuration and a token
    response that parses to an object whose [id_token] is the string [t],
    the handler answers 302 with [Set-Cookie] equal to [id=] + [t] and
    [Location] equal to the configuration's [apiUrl] + [?id=] + [t]. *)
Theorem callback_success (d : Deployment) (event : Event)
    (qs : gmap string string) (code : string) (cfg : value) (a : AppConfig)
    (w : World) (resp : FetchResponse) (token : value) (t : string) :
  queryStringParameters event = Some qs ->
  qs !! "code" = Some code ->
  code <> "" ->
  (getAppConfig d w).2 = Resolve cfg ->
  has_AppConfig cfg a ->
  identity_provider w (token_url a) (token_request a code) = Resolve resp ->
  JSON.parse (text resp) = Some token ->
  JSON.get token "id_token" = Resolve (Some (JString t)) ->
  exists r,
    (callback_eventHandler d event w).2 = Resolve r
    /\ statusCode r = 302%Z
    /\ response_headers r !! "Set-Cookie" = Some ("id=" +:+ t)
    /\ response_headers r !! "Location" = Some (apiUrl a +:+ "?id=" +:+ t)
    /\ response_headers r
       = {[ "Set-Cookie" := "id=" +:+ t; "Location" := apiUrl a +:+ "?id=" +:+ t ]}.
Proof.
  intros Hq Hc Hne Hcfg Ha Hip Hp Hg.
  rewrite (callback_run d event code cfg a w
             (code_of_Some event qs code Hq Hc Hne) Hcfg Ha).
  rewrite Hip, Hp, Hg. cbn [snd interpolate ToString].
  eexists. split; [reflexivity|]. cbn [statusCode response_headers].
  split; [reflexivity|]. split; [|split; [|reflexivity]].
  - apply lookup_insert_eq.
  - rewrite lookup_insert_ne by discriminate. apply lookup_singleton_eq.
Qed.

Lemma callback_success_witness :
  exists r,
    (callback_eventHandler sample_deployment
       (get_callback (Some {[ "code" := "abc" ]}))
       (provisioned (answering 200 (token_body "tok123")))).2 = Resolve r
    /\ statusCode r = 302%Z
    /\ response_headers r !! "Set-Cookie" = Some "id=tok123"
    /\ response_headers r !! "Location"
       = Some "https://api.nunciato.org/stage/?id=tok123"
    /\ response_headers r
       = {[ "Set-Cookie" := "id=tok123";
            "Location" := "https://api.nunciato.org/stage/?id=tok123" ]}.
Proof.
  apply (callback_success sample_deployment
           (get_callback (Some {[ "code" := "abc" ]})) {[ "code" := "abc" ]} "abc"
           (object_of (c sample_deployment)) (c sample_deployment)
           (provisioned (answering 200 (token_body "tok123")))
           {| status := 200; text := token_body "tok123" |}
           (JObject [("id_token", JString "tok123")]) "tok123").
  - reflexivity.
  - reflexivity.
  - discriminate.
  - vm_compute. reflexivity.
  - apply object_of_has_AppConfig.
  - reflexivity.
  - vm_compute. reflexivity.
  - reflexivity.
Defined.

(** C1, as stated, fails.  The identity provider answers the exchange with
    [400] and the JSON body [{"error":"invalid_grant"}], which has no
    [id_token]: the handler does not fail, it answers 302 with the cookie
    [id=undefined] and a [Location] to the API. *)
Lemma callback_without_id_token_counterexample :
  let event := get_callback (Some {[ "code" := "abc" ]}) in
  let w := provisioned (answering 400 invalid_grant) in
  code_of event = Some "abc"
  /\ JSON.parse invalid_grant = Some (JObject [("error", JString "invalid_grant")])
  /\ JSON.get (JObject [("error", JString "invalid_grant")]) "id_token" = Resolve None
  /\ (callback_eventHandler sample_deployment event w).2
     = Resolve {| statusCode := 302;
                  response_body := "{}";
                  response_headers :=
                    {[ "Set-Cookie" := "id=undefined";
                       "Location" := "https://api.nunciato.org/stage/?id=undefined" ]} |}
  /\ ~ (exists e, (callback_eventHandler sample_deployment event w).2 = Reject e)
  /\ response_headers
       (lambda_proxy (callback_eventHandler sample_deployment event w).2)
       !! "Set-Cookie" = Some "id=undefined".
Proof.
  cbv zeta.
  assert (H : (callback_eventHandler sample_deployment
                 (get_callback (Some {[ "code" := "abc" ]}))
                 (provisioned (answering 400 invalid_grant))).2
              = Resolve {| statusCode := 302;
                  response_body := "{}";
                  response_headers :=
                    {[ "Set-Cookie" := "id=undefined";
                       "Location" := "https://api.nunciato.org/stage/?id=undefined" ]} |})
    by (vm_compute; reflexivity).
  split; [reflexivity|]. split; [vm_compute; reflexivity|].
  split; [reflexivity|]. split; [exact H|]. rewrite H. split.
  - intros [e He]. discriminate.
  - reflexivity.
Qed.

(** What the handler does with a token response that parses to a value
    other than [null] and has no [id_token]: it answers 302, the text
    [undefined] standing where the token would. *)
Lemma callback_undefined_token (d : Deployment) (event : Event)
    (qs : gmap string string) (code : string) (cfg : value) (a : AppConfig)
    (w : World) (resp : FetchResponse) (token : value) :
  queryStringParameters event = Some qs ->
  qs !! "code" = Some code ->
  code <> "" ->
  (getAppConfig d w).2 = Resolve cfg ->
  has_AppConfig cfg a ->
  identity_provider w (token_url a) (token_request a code) = Resolve resp ->
  JSON.parse (text resp) = Some token ->
  JSON.get token "id_token" = Resolve None ->
  (callback_eventHandler d event w).2
  = Resolve {| statusCode := 302;
               response_body := "{}";
               response_headers :=
                 {[ "Set-Cookie" := "id=undefined";
                    "Location" := apiUrl a +:+ "?id=undefined" ]} |}.
Proof.
  intros Hq Hc Hne Hcfg Ha Hip Hp Hg.
  rewrite (callback_run d event code cfg a w
             (code_of_Some event qs code Hq Hc Hne) Hcfg Ha).
  rewrite Hip, Hp, Hg. reflexivity.
Qed.

(** C1, amended: with a (non-empty) [code] and a loaded configuration, when
    the token response cannot be parsed as JSON (or parses to [null]) the
    handler's promise is rejected, by [resp.json()] in the first case (a
    [TokenExchangeFailed] failure); the gateway answers 502, and the
    response carries neither [Set-Cookie] nor [Location]. *)
Theorem callback_exchange_failure (d : Deployment) (event : Event)
    (qs : gmap string string) (code : string) (cfg : value) (a : AppConfig)
    (w : World) (resp : FetchResponse) :
  queryStringParameters event = Some qs ->
  qs !! "code" = Some code ->
  code <> "" ->
  (getAppConfig d w).2 = Resolve cfg ->
  has_AppConfig cfg a ->
  identity_provider w (token_url a) (token_request a code) = Resolve resp ->
  JSON.parse (text resp) = None \/ JSON.parse (text resp) = Some JNull ->
  let result := (callback_eventHandler d event w).2 in
  (exists e, result = Reject e
             /\ (JSON.parse (text resp) = None ->
                 e = FetchError "invalid-json" /\ TokenExchangeFailed e = true))
  /\ statusCode (lambda_proxy result) = 502%Z
  /\ response_headers (lambda_proxy result) !! "Set-Cookie" = None
  /\ response_headers (lambda_proxy result) !! "Location" = None.
Proof.
  intros Hq Hc Hne Hcfg Ha Hip Hp. cbv zeta.
  rewrite (callback_run d event code cfg a w
             (code_of_Some event qs code Hq Hc Hne) Hcfg Ha).
  rewrite Hip. cbn [snd].
  destruct Hp as [-> | ->]; cbn [JSON.get lambda_proxy statusCode response_headers];
    (split; [eexists; split; [reflexivity|]; intros; try discriminate; auto|]);
    repeat split; apply lookup_empty.
Qed.

Lemma callback_exchange_failure_witness :
  let event := get_callback (Some {[ "code" := "abc" ]}) in
  let result := (callback_eventHandler sample_deployment event
                   (provisioned (answering 200 "<html>Bad Gateway</html>"))).2 in
  (exists e, result = Reject e
             /\ (JSON.parse "<html>Bad Gateway</html>" = None ->
                 e = FetchError "invalid-json" /\ TokenExchangeFailed e = true))
  /\ statusCode (lambda_proxy result) = 502%Z
  /\ response_headers (lambda_proxy result) !! "Set-Cookie" = None
  /\ response_headers (lambda_proxy result) !! "Location" = None.
Proof.
  cbv zeta.
  refine (callback_exchange_failure sample_deployment
           (get_callback (Some {[ "code" := "abc" ]})) {[ "code" := "abc" ]} "abc"
           (object_of (c sample_deployment)) (c sample_deployment)
           (provisioned (answering 200 "<html>Bad Gateway</html>"))
           {| status := 200; text := "<html>Bad Gateway</html>" |}
           _ _ _ _ _ _ _).
  - reflexivity.
  - reflexivity.
  - discriminate.
  - vm_compute. reflexivity.
  - apply object_of_has_AppConfig.
  - reflexivity.
  - left. vm_compute. reflexivity.
Defined.

(** ** Further properties of the program *)

(** *** Helpers *)

Lemma get_prop (v : value) (name : string) :
  v <> JNull -> JSON.get v name = Resolve (prop v name).
Proof. destruct v; try reflexivity. intros H. by destruct H. Qed.

Lemma read_field (v : value) (name : string) (w : World) :
  v <> JNull -> read v name w = ([], field v name).
Proof.
  intros H. unfold read, field. rewrite (get_prop v name H).
  by destruct (interpolate (prop v name)).
Qed.

(** The only error of a template literal is the TypeError. *)
Lemma ToString_TypeError : forall v e, ToString v = Reject e -> e = TypeError.
Proof.
  fix IH 1. intros v. destruct v as [| [|] | n | s | l | ms]; cbn [ToString];
    try discriminate.
  - revert l. fix IHl 1. intros [|x l] e; [discriminate|].
    destruct (match x with JNull => Resolve EmptyString | _ => ToString x end)
      as [t|err] eqn:Hx.
    + pose proof (IHl l) as Hl. clear IH IHl.
      destruct l as [|y l]; [discriminate|].
      destruct ((fix join (l : list value) : outcome string :=
                   match l with
                   | [] => Resolve EmptyString
                   | e :: r =>
                       match (match e with JNull => Resolve EmptyString | _ => ToString e end) with
                       | Reject err => Reject err
                       | Resolve t =>
                           match r with
                           | [] => Resolve t
                           | _ =>
                               match join r with
                               | Reject err => Reject err
                               | Resolve u => Resolve (t +:+ "," +:+ u)
                               end
                           end
                       end
                   end) (y :: l)) as [u|err]; [discriminate|].
      intros [= <-]. by apply Hl.
    + intros [= <-]. pose proof (IH x) as Hv. clear IH IHl.
      destruct x; try discriminate Hx; by apply Hv in Hx.
  - intros e. destruct (member "toString" ms); [|discriminate]. by intros [= <-].
Qed.

Lemma field_TypeError (v : value) (name : string) (e : Error) :
  field v name = Reject e -> e = TypeError.
Proof.
  unfold field, interpolate. destruct (prop v name); [|discriminate].
  apply ToString_TypeError.
Qed.

Lemma has_AppConfig_not_null (v : value) (a : AppConfig) :
  has_AppConfig v a -> v <> JNull.
Proof. intros (H & _) ->. discriminate H. Qed.

Lemma null_or_not (v : value) : v = JNull \/ v <> JNull.
Proof. destruct v; auto; right; discriminate. Qed.

Lemma match_not_null {A : Type} (v : value) (X Y : A) :
  v <> JNull -> match v with JNull => X | _ => Y end = Y.
Proof. destruct v; try reflexivity. intros H. by destruct H. Qed.

(** The whole run of the callback handler, for every world and every event
    with a code. *)
Lemma callback_run_any (d : Deployment) (event : Event) (code : string) (w : World) :
  code_of event = Some code ->
  callback_eventHandler d event w =
  match (getAppConfig d w).2 with
  | Reject e => ([S3GetObject (bucket_id d) (configFilename (consts d))], Reject e)
  | Resolve cfg =>
      match cfg with
      | JNull =>
          ([S3GetObject (bucket_id d) (configFilename (consts d))], Reject TypeError)
      | _ =>
          match exchange cfg code with
          | Reject e =>
              ([S3GetObject (bucket_id d) (configFilename (consts d))], Reject e)
          | Resolve (url, init) =>
              ([S3GetObject (bucket_id d) (configFilename (consts d)); Fetch url init],
               match identity_provider w url init with
               | Reject e => Reject e
               | Resolve resp =>
                   match JSON.parse (text resp) with
                   | None => Reject (FetchError "invalid-json")
                   | Some token =>
                       match token with
                       | JNull => Reject TypeError
                       | _ => redirect cfg token
                       end
                   end
               end)
          end
      end
  end.
Proof.
  intros Hcode. unfold callback_eventHandler. rewrite Hcode. unfold bind.
  destruct (getAppConfig d w) as [t r] eqn:E.
  rewrite getAppConfig_run in E. injection E as <- _. cbn [snd].
  destruct r as [cfg|e]; [|reflexivity].
  destruct (null_or_not cfg) as [->|Hnn]; [reflexivity|].
  rewrite (match_not_null cfg _ _ Hnn), !(read_field cfg _ w Hnn).
  unfold exchange, redirect.
  destruct (field cfg "clientID") as [clientID|e]; [|reflexivity].
  destruct (field cfg "redirectUrl") as [redirectUrl|e]; [|reflexivity].
  destruct (field cfg "authEndpoint") as [authEndpoint|e]; [|reflexivity].
  unfold fetch. fold (exchange_init clientID redirectUrl code).
  destruct (identity_provider w (authEndpoint +:+ "/oauth2/token")
              (exchange_init clientID redirectUrl code)) as [resp|e]; [|reflexivity].
  unfold json. destruct (JSON.parse (text resp)) as [token|]; [|reflexivity].
  unfold ret at 1.
  destruct (null_or_not token) as [->|Hn]; [reflexivity|].
  rewrite (match_not_null token _ _ Hn), (read_field token _ w Hn).
  destruct (field token "id_token") as [id_token|e]; [|reflexivity].
  destruct (field cfg "apiUrl") as [apiUrl|e]; reflexivity.
Qed.

Lemma append_inj_l (a x y : string) : a +:+ x = a +:+ y -> x = y.
Proof.
  induction a as [|ch a IH]; [done|].
  change (String ch (a +:+ x) = String ch (a +:+ y) -> x = y).
  intros [= H]. by apply IH.
Qed.

Lemma append_slash_not_empty (x : string) : x +:+ "/" <> "".
Proof. destruct x; discriminate. Qed.

Lemma append_slash_inj (x y : string) : x +:+ "/" = y +:+ "/" -> x = y.
Proof.
  revert y. induction x as [|a x IH]; intros [|b y].
  - done.
  - change ("/" = String b (y +:+ "/") -> "" = String b y).
    intros [= _ H]. symmetry in H. by apply append_slash_not_empty in H.
  - change (String a (x +:+ "/") = "/" -> String a x = "").
    intros [= _ H]. by apply append_slash_not_empty in H.
  - change (String a (x +:+ "/") = String b (y +:+ "/") -> String a x = String b y).
    intros [= -> H]. f_equal. by apply IH.
Qed.

Lemma getAPIUrl_custom (d : Deployment) (path : option string) :
  truthy (useCustomDomain d) = true ->
  getAPIUrl d path
  = "https://" +:+ gatewayHostname (consts d) +:+ "/" +:+ basePath (consts d) +:+ "/"
      +:+ match path with
          | Some p => if truthy p then p +:+ "/" else ""
          | None => ""
          end.
Proof. intros H. unfold getAPIUrl. by rewrite H. Qed.

(** *** Base-URL derivation and the custom domain *)

(** X1: custom-domain mode is on exactly when the domain and the base path
    are both non-empty; the test of the hostname never decides, the
    hostname being [api.] followed by the domain. *)
Theorem useCustomDomain_iff (d : Deployment) :
  truthy (useCustomDomain d) = true
  <-> gatewayDomain (consts d) <> "" /\ basePath (consts d) <> "".
Proof.
  rewrite useCustomDomain_truthy, andb_true_iff, !truthy_true. reflexivity.
Qed.

Lemma useCustomDomain_iff_witness :
  truthy (useCustomDomain sample_deployment) = true
  /\ ~ truthy (useCustomDomain generated_deployment) = true.
Proof.
  split.
  - apply (proj2 (useCustomDomain_iff sample_deployment)). split; discriminate.
  - intros H. apply (proj1 (useCustomDomain_iff generated_deployment)) in H.
    destruct H as [H _]. apply H. reflexivity.
Defined.

(** X2: without custom-domain mode the sub-path is dropped: every derived
    URL is [api.url], so the callback URL and the logout URL registered
    with the client are both [api.url], the published [redirectUrl] equals
    the published [apiUrl], and no zone is looked up and no domain resource
    declared. *)
Theorem generated_mode_drops_subpath (d : Deployment) :
  truthy (useCustomDomain d) = false ->
  (forall path, getAPIUrl d path = api_url d)
  /\ callbackUrls (client d) = [api_url d]
  /\ logoutUrls (client d) = [api_url d]
  /\ redirectUrl (c d) = apiUrl (c d)
  /\ forall cloud, custom_domain d cloud = [].
Proof.
  intros H.
  assert (Hu : forall path, getAPIUrl d path = api_url d)
    by (intros path; by apply getAPIUrl_generated).
  split; [exact Hu|]. unfold client, c, custom_domain.
  cbn [callbackUrls logoutUrls redirectUrl apiUrl]. rewrite !Hu, H. auto.
Qed.

Lemma generated_mode_drops_subpath_witness :
  (forall path, getAPIUrl generated_deployment path = api_url generated_deployment)
  /\ callbackUrls (client generated_deployment) = [api_url generated_deployment]
  /\ logoutUrls (client generated_deployment) = [api_url generated_deployment]
  /\ redirectUrl (c generated_deployment) = apiUrl (c generated_deployment)
  /\ forall cloud, custom_domain generated_deployment cloud = [].
Proof. apply generated_mode_drops_subpath. reflexivity. Defined.

(** X3: in custom-domain mode distinct non-empty sub-paths have distinct
    URLs, none of them the base URL; the callback URL and the logout URL
    registered with the client differ. *)
Theorem getAPIUrl_custom_injective (d : Deployment) :
  truthy (useCustomDomain d) = true ->
  (forall p p', p <> "" -> p' <> "" ->
     getAPIUrl d (Some p) = getAPIUrl d (Some p') -> p = p')
  /\ (forall p, p <> "" -> getAPIUrl d (Some p) <> getAPIUrl d None)
  /\ callbackUrls (client d) <> logoutUrls (client d).
Proof.
  intros H.
  assert (Hinj : forall p p', p <> "" -> p' <> "" ->
            getAPIUrl d (Some p) = getAPIUrl d (Some p') -> p = p').
  { intros p p' Hp Hp'. rewrite !getAPIUrl_custom by done.
    apply truthy_true in Hp, Hp'. rewrite Hp, Hp'. intros E.
    do 5 apply append_inj_l in E. by apply append_slash_inj. }
  split; [exact Hinj|]. split.
  - intros p Hp. rewrite !getAPIUrl_custom by done.
    apply truthy_true in Hp. rewrite Hp. intros E.
    do 5 apply append_inj_l in E. by apply append_slash_not_empty in E.
  - unfold client. cbn [callbackUrls logoutUrls]. intros [= E].
    apply Hinj in E; discriminate.
Qed.

Lemma getAPIUrl_custom_injective_witness :
  (forall p p', p <> "" -> p' <> "" ->
     getAPIUrl sample_deployment (Some p) = getAPIUrl sample_deployment (Some p') ->
     p = p')
  /\ (forall p, p <> "" ->
        getAPIUrl sample_deployment (Some p) <> getAPIUrl sample_deployment None)
  /\ callbackUrls (client sample_deployment) <> logoutUrls (client sample_deployment).
Proof. apply getAPIUrl_custom_injective. reflexivity. Defined.

(** X4: whatever domain resources provisioning declares agree with the
    derived URLs: the base-path mapping is on the declared domain name,
    every derived URL is [https://] + that domain name + [/] + the mapped
    base path + [/] + the sub-path part, and the alias record is an [A]
    record of that same name, placed in the zone looked up under
    [gatewayDomain], of which the name is the [api] sub-domain. *)
Theorem custom_domain_wiring (d : Deployment) (cloud : Cloud)
    (n h cert n' h' api stage b : string) :
  In (Register (apigateway_DomainName n h cert)) (custom_domain d cloud) ->
  In (Register (apigateway_BasePathMapping n' h' api stage b)) (custom_domain d cloud) ->
  h' = h
  /\ (forall path, exists rest,
        getAPIUrl d path = "https://" +:+ h +:+ "/" +:+ b +:+ "/" +:+ rest)
  /\ (forall n'' rn ty z al,
        In (Register (route53_Record n'' rn ty z al)) (custom_domain d cloud) ->
        rn = h /\ ty = "A"
        /\ getZone cloud (gatewayDomain (consts d)) = Resolve {| zone_id := z |}
        /\ In (GetZone (gatewayDomain (consts d))) (custom_domain d cloud)
        /\ h = "api." +:+ gatewayDomain (consts d)).
Proof.
  unfold custom_domain, setUpCustomDomain.
  destruct (truthy (useCustomDomain d)) eqn:Hm; [|intros []].
  destruct (getZone cloud (gatewayDomain (consts d))) as [[z0]|e] eqn:Hz;
    cbn [fst In]; intros H1 H2.
  - destruct H1 as [H1|[H1|[H1|[H1|[]]]]]; try discriminate H1.
    destruct H2 as [H2|[H2|[H2|[H2|[]]]]]; try discriminate H2.
    injection H1 as _ <- _. injection H2 as _ <- _ _ <-.
    split; [reflexivity|]. split.
    + intros path. eexists. by apply getAPIUrl_custom.
    + intros n'' rn ty z al H3.
      destruct H3 as [H3|[H3|[H3|[H3|[]]]]]; try discriminate H3.
      injection H3 as _ <- <- <- _. repeat split; auto.
  - destruct H1 as [H1|[]]. discriminate H1.
Qed.

Lemma custom_domain_wiring_witness :
  "api.nunciato.org" = "api.nunciato.org"
  /\ (forall path, exists rest,
        getAPIUrl sample_deployment path
        = "https://" +:+ "api.nunciato.org" +:+ "/" +:+ "stage" +:+ "/" +:+ rest)
  /\ (forall n'' rn ty z al,
        In (Register (route53_Record n'' rn ty z al))
           (custom_domain sample_deployment sample_cloud) ->
        rn = "api.nunciato.org" /\ ty = "A"
        /\ getZone sample_cloud (gatewayDomain (consts sample_deployment))
           = Resolve {| zone_id := z |}
        /\ In (GetZone (gatewayDomain (consts sample_deployment)))
              (custom_domain sample_deployment sample_cloud)
        /\ "api.nunciato.org" = "api." +:+ gatewayDomain (consts sample_deployment)).
Proof.
  apply (custom_domain_wiring sample_deployment sample_cloud
           "domain" "api.nunciato.org"
           "arn:aws:acm:us-east-1:639972025873:certificate/044552ff-3c88-46d8-af77-ddcb366af26c"
           "mapping" "api.nunciato.org" "abc123" "stage" "stage").
  - vm_compute. right. left. reflexivity.
  - vm_compute. right. right. left. reflexivity.
Defined.

(** X5: in custom-domain mode the three domain resources are declared when
    the zone lookup succeeds; when it fails only the lookup has happened
    and nothing is declared, yet the callback URL the client is declared
    with and the [apiUrl] of the configuration are the custom-domain ones
    all the same: the derivation does not look at the outcome of the
    set-up. *)
Theorem custom_domain_setup (d : Deployment) (cloud : Cloud) :
  truthy (useCustomDomain d) = true ->
  (forall zone, getZone cloud (gatewayDomain (consts d)) = Resolve zone ->
     length (registered (custom_domain d cloud)) = 3%nat)
  /\ (forall e, getZone cloud (gatewayDomain (consts d)) = Reject e ->
        custom_domain d cloud = [GetZone (gatewayDomain (consts d))]
        /\ registered (custom_domain d cloud) = []
        /\ callbackUrls (client d)
           = ["https://" +:+ gatewayHostname (consts d) +:+ "/" +:+ basePath (consts d)
                +:+ "/callback/"]
        /\ apiUrl (c d)
           = "https://" +:+ gatewayHostname (consts d) +:+ "/" +:+ basePath (consts d)
               +:+ "/").
Proof.
  intros Hm. unfold custom_domain, setUpCustomDomain. rewrite Hm. split.
  - intros zone ->. reflexivity.
  - intros e ->. split; [reflexivity|]. split; [reflexivity|].
    unfold client, c. cbn [callbackUrls apiUrl]. rewrite !getAPIUrl_custom by done.
    split; reflexivity.
Qed.

Lemma custom_domain_setup_witness :
  length (registered (custom_domain sample_deployment sample_cloud)) = 3%nat
  /\ custom_domain sample_deployment zoneless_cloud = [GetZone "nunciato.org"]
  /\ callbackUrls (client sample_deployment)
     = ["https://api.nunciato.org/stage/callback/"].
Proof.
  destruct (custom_domain_setup sample_deployment sample_cloud eq_refl) as [H1 _].
  destruct (custom_domain_setup sample_deployment zoneless_cloud eq_refl) as [_ H2].
  split; [apply (H1 {| zone_id := "Z0123456789" |}); reflexivity|].
  destruct (H2 (AWSError "no matching Route53Zone found") eq_refl) as (H3 & _ & H4 & _).
  split; [exact H3 | exact H4].
Defined.

(** *** The callback handler, beyond its contract *)

Lemma code_of_None_iff (event : Event) :
  code_of event = None
  <-> (queryStringParameters event = None
       \/ exists qs, queryStringParameters event = Some qs
                     /\ (qs !! "code" = None \/ qs !! "code" = Some "")).
Proof.
  unfold code_of. destruct (queryStringParameters event) as [qs|]; [|tauto].
  destruct (qs !! "code") as [[|ch code]|] eqn:E; cbn [truthy]; split.
  - intros _. right. exists qs. auto.
  - done.
  - discriminate.
  - intros [H | (qs' & H' & [H | H])]; congruence.
  - intros _. right. exists qs. auto.
  - done.
Qed.

Lemma callback_not_400 (d : Deployment) (event : Event) (code : string) (w : World) :
  code_of event = Some code ->
  (callback_eventHandler d event w).2 <> Resolve missing_code.
Proof.
  intros Hc. rewrite (callback_run_any d event code w Hc).
  destruct (getAppConfig d w).2 as [cfg|e]; [|discriminate].
  destruct (null_or_not cfg) as [->|Hn]; [discriminate|].
  rewrite (match_not_null cfg _ _ Hn).
  destruct (exchange cfg code) as [[url init]|e]; [|discriminate]. cbn [snd].
  destruct (identity_provider w url init) as [resp|e]; [|discriminate].
  destruct (JSON.parse (text resp)) as [token|]; [|discriminate].
  destruct (null_or_not token) as [->|Ht]; [discriminate|].
  rewrite (match_not_null token _ _ Ht). unfold redirect, redirect_to, missing_code.
  destruct (field token "id_token"); [|discriminate].
  destruct (field cfg "apiUrl"); intros H; discriminate H.
Qed.

(** X6: the handler answers its 400 exactly when there are no query string
    parameters, no [code] among them, or an empty [code] ([?code=]); and
    whenever it does it has made no request. *)
Theorem callback_bad_request_iff (d : Deployment) (event : Event) (w : World) :
  ((callback_eventHandler d event w).2 = Resolve missing_code
   <-> (queryStringParameters event = None
        \/ exists qs, queryStringParameters event = Some qs
                      /\ (qs !! "code" = None \/ qs !! "code" = Some "")))
  /\ ((callback_eventHandler d event w).2 = Resolve missing_code ->
      (callback_eventHandler d event w).1 = []).
Proof.
  rewrite <- code_of_None_iff.
  destruct (code_of event) as [code|] eqn:Hc.
  - pose proof (callback_not_400 d event code w Hc) as Hn. split; [split|]; done.
  - unfold callback_eventHandler. rewrite Hc. split; [split|]; reflexivity.
Qed.

Lemma callback_bad_request_iff_witness :
  (callback_eventHandler sample_deployment
     (get_callback (Some {[ "code" := "" ]}))
     (provisioned (answering 200 (token_body "tok123")))).2 = Resolve missing_code
  /\ (callback_eventHandler sample_deployment
        (get_callback (Some {[ "code" := "" ]}))
        (provisioned (answering 200 (token_body "tok123")))).1 = [].
Proof.
  destruct (callback_bad_request_iff sample_deployment
              (get_callback (Some {[ "code" := "" ]}))
              (provisioned (answering 200 (token_body "tok123")))) as [[_ H1] H2].
  assert (H : (callback_eventHandler sample_deployment
                 (get_callback (Some {[ "code" := "" ]}))
                 (provisioned (answering 200 (token_body "tok123")))).2
              = Resolve missing_code).
  { apply H1. right. exists {[ "code" := "" ]}. split; [reflexivity|].
    right. reflexivity. }
  split; [exact H | exact (H2 H)].
Defined.

(** X7: when the configuration cannot be loaded the exchange is not
    attempted: the handler's promise is rejected with the error of the read
    (a [ConfigUnavailable] failure), the only request made is the read of
    the bucket, and the gateway answers 502 without cookie or redirect. *)
Theorem callback_config_unavailable (d : Deployment) (event : Event)
    (qs : gmap string string) (code : string) (w : World) (e : Error) :
  queryStringParameters event = Some qs ->
  qs !! "code" = Some code ->
  code <> "" ->
  (getAppConfig d w).2 = Reject e ->
  callback_eventHandler d event w
  = ([S3GetObject (bucket_id d) (configFilename (consts d))], Reject e)
  /\ filter is_fetch (callback_eventHandler d event w).1 = []
  /\ ConfigUnavailable e = true
  /\ statusCode (lambda_proxy (callback_eventHandler d event w).2) = 502%Z
  /\ response_headers (lambda_proxy (callback_eventHandler d event w).2)
     !! "Set-Cookie" = None.
Proof.
  intros Hq Hc Hne He.
  rewrite (callback_run_any d event code w (code_of_Some event qs code Hq Hc Hne)).
  rewrite He. repeat split. by apply (getAppConfig_fails d w).
Qed.

Lemma callback_config_unavailable_witness :
  callback_eventHandler sample_deployment
    (get_callback (Some {[ "code" := "abc" ]}))
    {| objects := ∅; identity_provider := answering 200 (token_body "tok123") |}
  = ([S3GetObject "bucket-0a1b2c3" "config.json"], Reject (AWSError "NoSuchKey"))
  /\ filter is_fetch
       (callback_eventHandler sample_deployment
          (get_callback (Some {[ "code" := "abc" ]}))
          {| objects := ∅;
             identity_provider := answering 200 (token_body "tok123") |}).1 = []
  /\ ConfigUnavailable (AWSError "NoSuchKey") = true
  /\ statusCode (lambda_proxy
       (callback_eventHandler sample_deployment
          (get_callback (Some {[ "code" := "abc" ]}))
          {| objects := ∅;
             identity_provider := answering 200 (token_body "tok123") |}).2) = 502%Z
  /\ response_headers (lambda_proxy
       (callback_eventHandler sample_deployment
          (get_callback (Some {[ "code" := "abc" ]}))
          {| objects := ∅;
             identity_provider := answering 200 (token_body "tok123") |}).2)
     !! "Set-Cookie" = None.
Proof.
  apply (callback_config_unavailable sample_deployment
           (get_callback (Some {[ "code" := "abc" ]})) {[ "code" := "abc" ]} "abc").
  - reflexivity.
  - reflexivity.
  - discriminate.
  - reflexivity.
Defined.

(** X8: a stored configuration that is the JSON text [null] loads: the
    config-fetch handler serves it with 200 and the body [null], while the
    callback handler fails on its first property read, before any
    exchange. *)
Theorem null_config (d : Deployment) (event event' : Event)
    (qs : gmap string string) (code : string) (w : World) :
  queryStringParameters event = Some qs ->
  qs !! "code" = Some code ->
  code <> "" ->
  (getAppConfig d w).2 = Resolve JNull ->
  (config_eventHandler d event' w).2
  = Resolve {| statusCode := 200; response_body := "null"; response_headers := ∅ |}
  /\ callback_eventHandler d event w
     = ([S3GetObject (bucket_id d) (configFilename (consts d))], Reject TypeError).
Proof.
  intros Hq Hc Hne Hcfg. split.
  - rewrite config_eventHandler_run, Hcfg. reflexivity.
  - rewrite (callback_run_any d event code w (code_of_Some event qs code Hq Hc Hne)).
    by rewrite Hcfg.
Qed.

Lemma null_config_witness :
  (config_eventHandler sample_deployment (get_callback None)
     (holding " null " (answering 200 (token_body "tok123")))).2
  = Resolve {| statusCode := 200; response_body := "null"; response_headers := ∅ |}
  /\ callback_eventHandler sample_deployment
       (get_callback (Some {[ "code" := "abc" ]}))
       (holding " null " (answering 200 (token_body "tok123")))
     = ([S3GetObject "bucket-0a1b2c3" "config.json"], Reject TypeError).
Proof.
  apply (null_config sample_deployment
           (get_callback (Some {[ "code" := "abc" ]})) (get_callback None)
           {[ "code" := "abc" ]} "abc").
  - reflexivity.
  - reflexivity.
  - discriminate.
  - vm_compute. reflexivity.
Defined.

(** X9: the loaded configuration is not validated.  For every loaded value
    other than [null], whatever its shape, the handler goes on to call
    [fetch], once, as soon as the three properties it reads print in a
    template literal, a missing one as the text [undefined]; when one does
    not print (an object with a member called [toString]) the handler is
    rejected with a TypeError after the read of the bucket and before any
    call of [fetch]. *)
Theorem callback_unvalidated_config (d : Deployment) (event : Event)
    (qs : gmap string string) (code : string) (cfg : value) (w : World) :
  queryStringParameters event = Some qs ->
  qs !! "code" = Some code ->
  code <> "" ->
  (getAppConfig d w).2 = Resolve cfg ->
  cfg <> JNull ->
  (forall clientID redirectUrl authEndpoint,
     field cfg "clientID" = Resolve clientID ->
     field cfg "redirectUrl" = Resolve redirectUrl ->
     field cfg "authEndpoint" = Resolve authEndpoint ->
     (callback_eventHandler d event w).1
     = [S3GetObject (bucket_id d) (configFilename (consts d));
        Fetch (authEndpoint +:+ "/oauth2/token")
          {| method := "POST";
             headers := {[ "Content-Type" := "application/x-www-form-urlencoded" ]};
             body := String.concat "&"
               ["grant_type=authorization_code";
                "client_id=" +:+ clientID;
                "redirect_uri=" +:+ redirectUrl;
                "code=" +:+ code] |}])
  /\ (forall name e,
        name = "clientID" \/ name = "redirectUrl" \/ name = "authEndpoint" ->
        field cfg name = Reject e ->
        callback_eventHandler d event w
        = ([S3GetObject (bucket_id d) (configFilename (consts d))], Reject TypeError))
  /\ (forall name, prop cfg name = None -> field cfg name = Resolve "undefined").
Proof.
  intros Hq Hc Hne Hcfg Hnn.
  rewrite (callback_run_any d event code w (code_of_Some event qs code Hq Hc Hne)).
  rewrite Hcfg, (match_not_null cfg _ _ Hnn). unfold exchange. split; [|split].
  - intros clientID redirectUrl authEndpoint -> -> ->. reflexivity.
  - intros name e Hname He.
    destruct (field cfg "clientID") as [x1|e1] eqn:E1;
      [|by rewrite (field_TypeError _ _ _ E1)].
    destruct (field cfg "redirectUrl") as [x2|e2] eqn:E2;
      [|by rewrite (field_TypeError _ _ _ E2)].
    destruct (field cfg "authEndpoint") as [x3|e3] eqn:E3;
      [|by rewrite (field_TypeError _ _ _ E3)].
    destruct Hname as [-> | [-> | ->]]; congruence.
  - intros name Hp. unfold field. by rewrite Hp.
Qed.

Lemma callback_unvalidated_config_witness :
  (callback_eventHandler sample_deployment
     (get_callback (Some {[ "code" := "abc" ]}))
     (holding partial_config unreachable)).1
  = [S3GetObject "bucket-0a1b2c3" "config.json";
     Fetch "https://auth.example.com/oauth2/token"
       {| method := "POST";
          headers := {[ "Content-Type" := "application/x-www-form-urlencoded" ]};
          body := "grant_type=authorization_code&client_id=7&redirect_uri=undefined&code=abc" |}]
  /\ callback_eventHandler sample_deployment
       (get_callback (Some {[ "code" := "abc" ]}))
       (holding unprintable_config unreachable)
     = ([S3GetObject "bucket-0a1b2c3" "config.json"], Reject TypeError).
Proof.
  split.
  - destruct (callback_unvalidated_config sample_deployment
                (get_callback (Some {[ "code" := "abc" ]})) {[ "code" := "abc" ]} "abc"
                (JObject [("clientID", JNumber "7.0");
                          ("authEndpoint", JString "https://auth.example.com")])
                (holding partial_config unreachable)) as (H & _ & _).
    + reflexivity.
    + reflexivity.
    + discriminate.
    + vm_compute. reflexivity.
    + discriminate.
    + apply (H "7" "undefined" "https://auth.example.com");
        vm_compute; reflexivity.
  - destruct (callback_unvalidated_config sample_deployment
                (get_callback (Some {[ "code" := "abc" ]})) {[ "code" := "abc" ]} "abc"
                (JObject [("clientID", JObject [("toString", JNumber "1")]);
                          ("redirectUrl", JString "https://api.example.com/callback/");
                          ("authEndpoint", JString "https://auth.example.com")])
                (holding unprintable_config unreachable)) as (_ & H & _).
    + reflexivity.
    + reflexivity.
    + discriminate.
    + vm_compute. reflexivity.
    + discriminate.
    + apply (H "clientID" TypeError); [left; reflexivity | reflexivity].
Defined.

(** X10: with a code and a loaded configuration, when the call of [fetch]
    is rejected (the identity provider cannot be reached) the handler's
    promise is rejected with that error; [fetch] was called once and is not
    called again, and the gateway answers 502 with neither cookie nor
    redirect. *)
Theorem callback_transport_failure (d : Deployment) (event : Event)
    (qs : gmap string string) (code : string) (cfg : value) (a : AppConfig)
    (w : World) (e : Error) :
  queryStringParameters event = Some qs ->
  qs !! "code" = Some code ->
  code <> "" ->
  (getAppConfig d w).2 = Resolve cfg ->
  has_AppConfig cfg a ->
  identity_provider w (token_url a) (token_request a code) = Reject e ->
  (callback_eventHandler d event w).2 = Reject e
  /\ filter is_fetch (callback_eventHandler d event w).1
     = [Fetch (token_url a) (token_request a code)]
  /\ statusCode (lambda_proxy (callback_eventHandler d event w).2) = 502%Z
  /\ response_headers (lambda_proxy (callback_eventHandler d event w).2)
     !! "Set-Cookie" = None
  /\ response_headers (lambda_proxy (callback_eventHandler d event w).2)
     !! "Location" = None.
Proof.
  intros Hq Hc Hne Hcfg Ha Hip.
  rewrite (callback_run d event code cfg a w
             (code_of_Some event qs code Hq Hc Hne) Hcfg Ha).
  rewrite Hip. repeat split.
Qed.

Lemma callback_transport_failure_witness :
  (callback_eventHandler sample_deployment
     (get_callback (Some {[ "code" := "abc" ]})) (provisioned unreachable)).2
  = Reject (FetchError "system")
  /\ filter is_fetch
       (callback_eventHandler sample_deployment
          (get_callback (Some {[ "code" := "abc" ]})) (provisioned unreachable)).1
     = [Fetch (token_url (c sample_deployment))
          (token_request (c sample_deployment) "abc")]
  /\ statusCode (lambda_proxy
       (callback_eventHandler sample_deployment
          (get_callback (Some {[ "code" := "abc" ]})) (provisioned unreachable)).2)
     = 502%Z
  /\ response_headers (lambda_proxy
       (callback_eventHandler sample_deployment
          (get_callback (Some {[ "code" := "abc" ]})) (provisioned unreachable)).2)
     !! "Set-Cookie" = None
  /\ response_headers (lambda_proxy
       (callback_eventHandler sample_deployment
          (get_callback (Some {[ "code" := "abc" ]})) (provisioned unreachable)).2)
     !! "Location" = None.
Proof.
  apply (callback_transport_failure sample_deployment
           (get_callback (Some {[ "code" := "abc" ]})) {[ "code" := "abc" ]} "abc"
           (object_of (c sample_deployment)) (c sample_deployment)
           (provisioned unreachable) (FetchError "system")).
  - reflexivity.
  - reflexivity.
  - discriminate.
  - vm_compute. reflexivity.
  - apply object_of_has_AppConfig.
  - reflexivity.
Defined.

(** X11: with a code and a loaded configuration, once the identity provider
    has answered, the handler redirects exactly when the body of the answer
    parses to a JSON value other than [null] whose [id_token] prints in a
    template literal: a missing [id_token] prints as [undefined], a number
    as the number, and so on, and that text is what the cookie and the
    redirect carry; an [id_token] that does not print (an object with a
    member called [toString]) rejects the handler with a TypeError. *)
Theorem callback_redirects_iff (d : Deployment) (event : Event)
    (qs : gmap string string) (code : string) (cfg : value) (a : AppConfig)
    (w : World) (resp : FetchResponse) :
  queryStringParameters event = Some qs ->
  qs !! "code" = Some code ->
  code <> "" ->
  (getAppConfig d w).2 = Resolve cfg ->
  has_AppConfig cfg a ->
  identity_provider w (token_url a) (token_request a code) = Resolve resp ->
  ((exists r, (callback_eventHandler d event w).2 = Resolve r)
   <-> exists token t,
         JSON.parse (text resp) = Some token /\ token <> JNull
         /\ field token "id_token" = Resolve t)
  /\ (forall token t,
        JSON.parse (text resp) = Some token -> token <> JNull ->
        field token "id_token" = Resolve t ->
        (callback_eventHandler d event w).2
        = Resolve {| statusCode := 302;
                     response_body := "{}";
                     response_headers :=
                       {[ "Set-Cookie" := "id=" +:+ t;
                          "Location" := apiUrl a +:+ "?id=" +:+ t ]} |})
  /\ (forall token e,
        JSON.parse (text resp) = Some token -> token <> JNull ->
        field token "id_token" = Reject e ->
        (callback_eventHandler d event w).2 = Reject TypeError).
Proof.
  intros Hq Hc Hne Hcfg Ha Hip.
  rewrite (callback_run d event code cfg a w
             (code_of_Some event qs code Hq Hc Hne) Hcfg Ha).
  rewrite Hip. cbn [snd].
  assert (Hrun : forall token, token <> JNull ->
    match JSON.get token "id_token" with
    | Reject e => Reject e
    | Resolve id_token =>
        match interpolate id_token with
        | Reject e => Reject e
        | Resolve t =>
            Resolve {| statusCode := 302;
                       response_body := "{}";
                       response_headers :=
                         {[ "Set-Cookie" := "id=" +:+ t;
                            "Location" := apiUrl a +:+ "?id=" +:+ t ]} |}
        end
    end
    = match field token "id_token" with
      | Reject e => Reject e
      | Resolve t =>
          Resolve {| statusCode := 302;
                     response_body := "{}";
                     response_headers :=
                       {[ "Set-Cookie" := "id=" +:+ t;
                          "Location" := apiUrl a +:+ "?id=" +:+ t ]} |}
      end).
  { intros token Ht. by rewrite (get_prop token _ Ht). }
  split; [|split].
  - destruct (JSON.parse (text resp)) as [token|].
    + destruct (null_or_not token) as [->|Ht].
      * split; [intros [r H]; discriminate H|].
        intros (token & t & [= <-] & H & _). by destruct H.
      * rewrite (Hrun token Ht).
        destruct (field token "id_token") as [t|e] eqn:Ef.
        -- split; eauto 6.
        -- split; [intros [r H]; discriminate H|].
           intros (token' & t & [= <-] & _ & H). congruence.
    + split; [intros [r H]; discriminate H|].
      intros (token & t & H & _). discriminate H.
  - intros token t -> Ht Hf. by rewrite (Hrun token Ht), Hf.
  - intros token e -> Ht Hf. rewrite (Hrun token Ht), Hf.
    by rewrite (field_TypeError _ _ _ Hf).
Qed.

Lemma callback_redirects_iff_witness :
  (callback_eventHandler sample_deployment
     (get_callback (Some {[ "code" := "abc" ]}))
     (provisioned (answering 200 numeric_token))).2
  = Resolve {| statusCode := 302;
               response_body := "{}";
               response_headers :=
                 {[ "Set-Cookie" := "id=" +:+ "15";
                    "Location" := apiUrl (c sample_deployment) +:+ "?id=" +:+ "15" ]} |}
  /\ (callback_eventHandler sample_deployment
        (get_callback (Some {[ "code" := "abc" ]}))
        (provisioned (answering 200 unprintable_token))).2
     = Reject TypeError.
Proof.
  split.
  - destruct (callback_redirects_iff sample_deployment
                (get_callback (Some {[ "code" := "abc" ]})) {[ "code" := "abc" ]} "abc"
                (object_of (c sample_deployment)) (c sample_deployment)
                (provisioned (answering 200 numeric_token))
                {| status := 200; text := numeric_token |}) as (_ & H & _).
    + reflexivity.
    + reflexivity.
    + discriminate.
    + vm_compute. reflexivity.
    + apply object_of_has_AppConfig.
    + reflexivity.
    + apply (H (JObject [("id_token", JNumber "1.50e1")]) "15").
      * vm_compute. reflexivity.
      * discriminate.
      * vm_compute. reflexivity.
  - destruct (callback_redirects_iff sample_deployment
                (get_callback (Some {[ "code" := "abc" ]})) {[ "code" := "abc" ]} "abc"
                (object_of (c sample_deployment)) (c sample_deployment)
                (provisioned (answering 200 unprintable_token))
                {| status := 200; text := unprintable_token |}) as (_ & _ & H).
    + reflexivity.
    + reflexivity.
    + discriminate.
    + vm_compute. reflexivity.
    + apply object_of_has_AppConfig.
    + reflexivity.
    + apply (H (JObject [("id_token", JObject [("toString", JNumber "1")])]) TypeError).
      * vm_compute. reflexivity.
      * discriminate.
      * reflexivity.
Defined.

(** X12: the handler never looks at the status of the token response: two
    worlds with the same bucket whose identity providers differ in the
    status of their answers only give the same run, request for request and
    result for result. *)
Theorem callback_ignores_status (d : Deployment) (event : Event) (w w' : World) :
  objects w = objects w' ->
  same_text (identity_provider w) (identity_provider w') ->
  callback_eventHandler d event w = callback_eventHandler d event w'.
Proof.
  intros Ho Hip. destruct (code_of event) as [code|] eqn:Hc.
  - rewrite !(callback_run_any d event code _ Hc), !getAppConfig_run, Ho. cbn [snd].
    destruct (objects w' !! config_key d) as [[[t|]]|]; cbn [Body]; try reflexivity.
    destruct (JSON.parse t) as [cfg|]; [|reflexivity].
    destruct (null_or_not cfg) as [->|Hn]; [reflexivity|].
    rewrite !(match_not_null cfg _ _ Hn).
    destruct (exchange cfg code) as [[url init]|e]; [|reflexivity]. f_equal.
    specialize (Hip url init).
    destruct (identity_provider w url init) as [r|e],
             (identity_provider w' url init) as [r'|e']; try done.
    + by rewrite Hip.
    + by rewrite Hip.
  - unfold callback_eventHandler. by rewrite Hc.
Qed.

Lemma callback_ignores_status_witness :
  callback_eventHandler sample_deployment
    (get_callback (Some {[ "code" := "abc" ]}))
    (provisioned (answering 200 (token_body "tok123")))
  = callback_eventHandler sample_deployment
      (get_callback (Some {[ "code" := "abc" ]}))
      (provisioned (answering 500 (token_body "tok123"))).
Proof.
  apply callback_ignores_status.
  - reflexivity.
  - intros url init. reflexivity.
Defined.

(** *** The config-fetch handler and the published object *)

(** X13: the config-fetch handler makes one request, the read of its own
    object, and depends on nothing else: not on the event, not on the
    identity provider, not on the other objects of the bucket. *)
Theorem config_fetch_reads_only_its_object (d : Deployment) (event event' : Event)
    (w w' : World) :
  objects w !! config_key d = objects w' !! config_key d ->
  config_eventHandler d event w = config_eventHandler d event' w'
  /\ (config_eventHandler d event w).1
     = [S3GetObject (bucket_id d) (configFilename (consts d))].
Proof.
  intros H. rewrite !config_eventHandler_run, !getAppConfig_run, H. split; reflexivity.
Qed.

Lemma config_fetch_reads_only_its_object_witness :
  config_eventHandler sample_deployment (get_callback None)
    (provisioned (answering 200 ""))
  = config_eventHandler sample_deployment
      (get_callback (Some {[ "code" := "abc" ]}))
      {| objects := <[("bucket-0a1b2c3", "other.json") := {| Body := None |}]>
                      (bucketObject sample_deployment ∅);
         identity_provider := unreachable |}
  /\ (config_eventHandler sample_deployment (get_callback None)
        (provisioned (answering 200 ""))).1
     = [S3GetObject "bucket-0a1b2c3" "config.json"].
Proof.
  apply (config_fetch_reads_only_its_object sample_deployment).
  vm_compute. reflexivity.
Defined.

(** X15: the published text loses nothing: two configurations that differ
    in any field are published as different texts. *)
Theorem published_text_injective (a a' : AppConfig) :
  a <> a' -> JSON.stringify (object_of a) <> JSON.stringify (object_of a').
Proof.
  intros Hne E. apply Hne.
  assert (H : Some (object_of a) = Some (object_of a'))
    by (rewrite <- !parse_stringify_AppConfig; by rewrite E).
  destruct a, a'. unfold object_of in H. cbn in H. by injection H as -> -> -> -> -> ->.
Qed.

Lemma published_text_injective_witness : config sample_deployment <> config redeployed.
Proof.
  apply (published_text_injective (c sample_deployment) (c redeployed)).
  intros H. apply (f_equal clientID) in H. vm_compute in H. discriminate H.
Defined.

(** *** From provisioning to the handlers *)

Lemma getAppConfig_provisioned (d : Deployment)
    (objs : gmap (string * string) GetObjectOutput)
    (ip : string -> RequestInit -> outcome FetchResponse) :
  (getAppConfig d {| objects := bucketObject d objs; identity_provider := ip |}).2
  = Resolve (object_of (c d)).
Proof.
  rewrite getAppConfig_run. cbn [snd objects]. unfold bucketObject.
  fold (config_key d). rewrite lookup_insert_eq. cbn [Body]. by rewrite parse_config.
Qed.

(** X17: after provisioning, the exchange request of the callback handler
    goes to the token endpoint of the user pool domain, with the client
    identifier the registration issued and, as [redirect_uri], the very
    callback URL registered with the client, which is also the
    [redirect_uri] the published sign-in and sign-up URLs end with. *)
Theorem provisioned_exchange_request (d : Deployment) (event : Event)
    (qs : gmap string string) (code : string)
    (objs : gmap (string * string) GetObjectOutput)
    (ip : string -> RequestInit -> outcome FetchResponse) :
  queryStringParameters event = Some qs ->
  qs !! "code" = Some code ->
  code <> "" ->
  exists u,
    callbackUrls (client d) = [u]
    /\ filter is_fetch
         (callback_eventHandler d event
            {| objects := bucketObject d objs; identity_provider := ip |}).1
       = [Fetch ("https://" +:+ authDomain (consts d) +:+ ".auth." +:+ region (consts d)
                   +:+ ".amazoncognito.com/oauth2/token")
            {| method := "POST";
               headers := {[ "Content-Type" := "application/x-www-form-urlencoded" ]};
               body := String.concat "&"
                 ["grant_type=authorization_code";
                  "client_id=" +:+ client_id d;
                  "redirect_uri=" +:+ u;
                  "code=" +:+ code] |}]
    /\ ends_with ("redirect_uri=" +:+ u) (signInUrl (c d)) = true
    /\ ends_with ("redirect_uri=" +:+ u) (signUpUrl (c d)) = true.
Proof.
  intros Hq Hc Hne. exists (getAPIUrl d (Some "callback")).
  split; [reflexivity|]. split.
  - rewrite (callback_run d event code (object_of (c d)) (c d) _
               (code_of_Some event qs code Hq Hc Hne)
               (getAppConfig_provisioned d objs ip)
               (object_of_has_AppConfig (c d))).
    cbn [fst filter]. unfold token_url, token_request, c.
    cbn [authEndpoint clientID redirectUrl]. rewrite !append_assoc. reflexivity.
  - unfold c. cbn [signInUrl signUpUrl]. split.
    + replace (_ +:+ "/login?" +:+ _)
        with (("https://" +:+ authDomain (consts d) +:+ ".auth." +:+ region (consts d)
               +:+ ".amazoncognito.com/login?client_id=" +:+ client_id d
               +:+ "&response_type=code&")
              +:+ ("redirect_uri=" +:+ getAPIUrl d (Some "callback")))
        by (rewrite !append_assoc; reflexivity).
      apply ends_with_append.
    + replace (_ +:+ "/signup?" +:+ _)
        with (("https://" +:+ authDomain (consts d) +:+ ".auth." +:+ region (consts d)
               +:+ ".amazoncognito.com/signup?client_id=" +:+ client_id d
               +:+ "&response_type=code&")
              +:+ ("redirect_uri=" +:+ getAPIUrl d (Some "callback")))
        by (rewrite !append_assoc; reflexivity).
      apply ends_with_append.
Qed.

Lemma provisioned_exchange_request_witness :
  exists u,
    callbackUrls (client sample_deployment) = [u]
    /\ filter is_fetch
         (callback_eventHandler sample_deployment
            (get_callback (Some {[ "code" := "abc" ]}))
            {| objects := bucketObject sample_deployment ∅;
               identity_provider := unreachable |}).1
       = [Fetch ("https://" +:+ authDomain (consts sample_deployment) +:+ ".auth."
                   +:+ region (consts sample_deployment)
                   +:+ ".amazoncognito.com/oauth2/token")
            {| method := "POST";
               headers := {[ "Content-Type" := "application/x-www-form-urlencoded" ]};
               body := String.concat "&"
                 ["grant_type=authorization_code";
                  "client_id=" +:+ client_id sample_deployment;
                  "redirect_uri=" +:+ u;
                  "code=" +:+ "abc"] |}]
    /\ ends_with ("redirect_uri=" +:+ u) (signInUrl (c sample_deployment)) = true
    /\ ends_with ("redirect_uri=" +:+ u) (signUpUrl (c sample_deployment)) = true.
Proof.
  apply (provisioned_exchange_request sample_deployment
           (get_callback (Some {[ "code" := "abc" ]})) {[ "code" := "abc" ]} "abc").
  - reflexivity.
  - reflexivity.
  - discriminate.
Defined.

(** X18: after provisioning, a successful exchange sends the browser to the
    exported [apiUrl] (the derived base URL), with the token in the query
    and in the cookie. *)
Theorem provisioned_redirect (d : Deployment) (event : Event)
    (qs : gmap string string) (code : string)
    (objs : gmap (string * string) GetObjectOutput)
    (ip : string -> RequestInit -> outcome FetchResponse)
    (resp : FetchResponse) (token : value) (t : string) :
  queryStringParameters event = Some qs ->
  qs !! "code" = Some code ->
  code <> "" ->
  ip (token_url (c d)) (token_request (c d) code) = Resolve resp ->
  JSON.parse (text resp) = Some token ->
  JSON.get token "id_token" = Resolve (Some (JString t)) ->
  (callback_eventHandler d event
     {| objects := bucketObject d objs; identity_provider := ip |}).2
  = Resolve {| statusCode := 302;
               response_body := "{}";
               response_headers :=
                 {[ "Set-Cookie" := "id=" +:+ t;
                    "Location" := getAPIUrl d None +:+ "?id=" +:+ t ]} |}.
Proof.
  intros Hq Hc Hne Hip Hp Hg.
  rewrite (callback_run d event code (object_of (c d)) (c d) _
             (code_of_Some event qs code Hq Hc Hne)
             (getAppConfig_provisioned d objs ip)
             (object_of_has_AppConfig (c d))).
  cbn [snd identity_provider]. rewrite Hip, Hp, Hg. reflexivity.
Qed.

Lemma provisioned_redirect_witness :
  (callback_eventHandler sample_deployment
     (get_callback (Some {[ "code" := "abc" ]}))
     {| objects := bucketObject sample_deployment ∅;
        identity_provider := answering 200 (token_body "tok123") |}).2
  = Resolve {| statusCode := 302;
               response_body := "{}";
               response_headers :=
                 {[ "Set-Cookie" := "id=" +:+ "tok123";
                    "Location" := getAPIUrl sample_deployment None +:+ "?id=" +:+ "tok123" ]} |}.
Proof.
  apply (provisioned_redirect sample_deployment
           (get_callback (Some {[ "code" := "abc" ]})) {[ "code" := "abc" ]} "abc"
           ∅ (answering 200 (token_body "tok123"))
           {| status := 200; text := token_body "tok123" |}
           (JObject [("id_token", JString "tok123")]) "tok123").
  - reflexivity.
  - reflexivity.
  - discriminate.
  - reflexivity.
  - vm_compute. reflexivity.
  - reflexivity.
Defined.
